(** * angular_dynamic_forms.rest : the form-layout pipeline of [AngularFormMixin]

    A shallow embedding of [src/angular_dynamic_forms/rest.py].

    Python values are a small tagged universe ([value]); a [dict] is an
    insertion-ordered association list with string keys (the keys of a layout
    and of serializer metadata are strings); exceptions are the [Raise] branch
    of [result]; recursion that Python does not bound ([_transform_layout]
    follows values that come from the defaults map) is driven by fuel, with
    [OutOfFuel] as its own outcome. *)

From Stdlib Require Import String Ascii List Bool Arith ZArith Lia.
Import ListNotations.
Local Open Scope string_scope.
Local Open Scope list_scope.

(** ** Python values *)

#[local] Unset Elimination Schemes.
Inductive value : Type :=
| VNone
| VBool (b : bool)
| VInt (n : Z)
| VStr (s : string)
| VList (l : list value)
| VTuple (l : list value)
| VDict (d : list (string * value))
| VCallable (returns : value).
(* [VCallable r] is a callable that returns [r] when the pipeline calls it
   (a layout value is called as [v(self)], on the viewset serving the request). *)

#[local] Set Elimination Schemes.

Abbreviation dict := (list (string * value)).

Section value_induction.
Variable P : value -> Prop.
Hypothesis HNone : P VNone.
Hypothesis HBool : forall b, P (VBool b).
Hypothesis HInt : forall n, P (VInt n).
Hypothesis HStr : forall s, P (VStr s).
Hypothesis HList : forall l, Forall P l -> P (VList l).
Hypothesis HTuple : forall l, Forall P l -> P (VTuple l).
Hypothesis HDict : forall d, Forall (fun kv => P (snd kv)) d -> P (VDict d).
Hypothesis HCallable : forall r, P r -> P (VCallable r).

Fixpoint value_rect' (v : value) : P v :=
  match v with
  | VNone => HNone
  | VBool b => HBool b
  | VInt n => HInt n
  | VStr s => HStr s
  | VList l =>
      HList l ((fix go (l : list value) : Forall P l :=
                  match l with
                  | [] => Forall_nil _
                  | x :: t => Forall_cons _ (value_rect' x) (go t)
                  end) l)
  | VTuple l =>
      HTuple l ((fix go (l : list value) : Forall P l :=
                   match l with
                   | [] => Forall_nil _
                   | x :: t => Forall_cons _ (value_rect' x) (go t)
                   end) l)
  | VDict d =>
      HDict d ((fix go (d : dict) : Forall (fun kv => P (snd kv)) d :=
                  match d with
                  | [] => Forall_nil _
                  | kv :: t => Forall_cons _ (value_rect' (snd kv)) (go t)
                  end) d)
  | VCallable r => HCallable r (value_rect' r)
  end.
End value_induction.

(** Truth value of an object, as [if x:], [not x] and [x or y] test it. *)
Definition truthy (v : value) : bool :=
  match v with
  | VNone => false
  | VBool b => b
  | VInt n => negb (Z.eqb n 0)
  | VStr s => negb (String.eqb s EmptyString)
  | VList l | VTuple l => match l with [] => false | _ => true end
  | VDict d => match d with [] => false | _ => true end
  | VCallable _ => true
  end.

(** [x or y] *)
Definition py_or (x y : value) : value := if truthy x then x else y.

(** [callable(v)] *)
Definition callable (v : value) : bool :=
  match v with VCallable _ => true | _ => false end.

(** [v == 'literal'] for a string literal. *)
Definition is_str (v : value) (s : string) : bool :=
  match v with VStr s' => String.eqb s' s | _ => false end.

(** Lists and dicts cannot be hashed; a tuple can when its items can. *)
Fixpoint hashable (v : value) : bool :=
  match v with
  | VList _ | VDict _ => false
  | VTuple l => forallb hashable l
  | _ => true
  end.

(** ** Dictionaries: insertion-ordered, keyed by strings *)

Module Dict.
Section ops.
Context {A : Type}.

(** [d.get(k)] / [k in d] *)
Fixpoint get (k : string) (d : list (string * A)) : option A :=
  match d with
  | [] => None
  | (k', v) :: t => if String.eqb k' k then Some v else get k t
  end.

Definition mem (k : string) (d : list (string * A)) : bool :=
  match get k d with Some _ => true | None => false end.

(** [d[k] = v]: an existing key keeps its place, a new one goes last. *)
Fixpoint set (k : string) (v : A) (d : list (string * A)) : list (string * A) :=
  match d with
  | [] => [(k, v)]
  | (k', v') :: t =>
      if String.eqb k' k then (k', v) :: t else (k', v') :: set k v t
  end.

(** [del d[k]] (on a key that is present) *)
Definition del (k : string) (d : list (string * A)) : list (string * A) :=
  filter (fun kv => negb (String.eqb (fst kv) k)) d.

(** [d.update(other)] *)
Definition update (d other : list (string * A)) : list (string * A) :=
  fold_left (fun acc kv => set (fst kv) (snd kv) acc) other d.

Definition keys (d : list (string * A)) : list string := map fst d.
End ops.
End Dict.

(** ** Outcomes *)

Inductive exn : Type :=
| KeyError (key : string)
| TypeError
| AttributeError
| NotImplementedError (layout : value)
| Http404 (message : string)
| FieldDoesNotExist.

Inductive result (A : Type) : Type :=
| Ok (a : A)
| Raise (e : exn)
| OutOfFuel.
Arguments Ok {A} a.
Arguments Raise {A} e.
Arguments OutOfFuel {A}.

Definition bind {A B : Type} (r : result A) (k : A -> result B) : result B :=
  match r with
  | Ok a => k a
  | Raise e => Raise e
  | OutOfFuel => OutOfFuel
  end.

Notation "x <- r ;; k" := (bind r (fun x => k))
  (at level 61, r at next level, right associativity).

(** A list comprehension whose body may raise: left to right, first failure wins. *)
Fixpoint mapM {A B : Type} (f : A -> result B) (l : list A) : result (list B) :=
  match l with
  | [] => Ok []
  | x :: t => y <- f x ;; ys <- mapM f t ;; Ok (y :: ys)
  end.

(** [d[k]] *)
Definition getitem (k : string) (d : dict) : result value :=
  match Dict.get k d with
  | Some v => Ok v
  | None => Raise (KeyError k)
  end.

(** [d.get(k, default)] *)
Definition get_default (k : string) (default : value) (d : dict) : value :=
  match Dict.get k d with
  | Some v => v
  | None => default
  end.

(** ** [camel] (module level, lines 399-403)

    Strings are byte strings and the case operations act on the ASCII
    letters: the names that are converted are field names and layout keys,
    written in ASCII.  On other letters [str.lower] and [str.title] do more
    than this model. *)

Definition is_upper (c : ascii) : bool :=
  let n := nat_of_ascii c in ((65 <=? n) && (n <=? 90))%nat.
Definition is_lower (c : ascii) : bool :=
  let n := nat_of_ascii c in ((97 <=? n) && (n <=? 122))%nat.
Definition to_lower (c : ascii) : ascii :=
  if is_upper c then ascii_of_nat (nat_of_ascii c + 32)%nat else c.
Definition to_upper (c : ascii) : ascii :=
  if is_lower c then ascii_of_nat (nat_of_ascii c - 32)%nat else c.
Definition is_cased (c : ascii) : bool := is_upper c || is_lower c.

(** [str.lower] *)
Fixpoint lower (s : string) : string :=
  match s with
  | EmptyString => EmptyString
  | String c t => String (to_lower c) (lower t)
  end.

(** [str.title]: a letter that follows a letter is lowered, any other letter
    is raised. *)
Fixpoint title_from (previous_is_cased : bool) (s : string) : string :=
  match s with
  | EmptyString => EmptyString
  | String c t =>
      String (if previous_is_cased then to_lower c else to_upper c)
             (title_from (is_cased c) t)
  end.
Definition title (s : string) : string := title_from false s.

Definition underscore : ascii := "_"%char.

(** ['_' in s] *)
Fixpoint has_underscore (s : string) : bool :=
  match s with
  | EmptyString => false
  | String c t => Ascii.eqb c underscore || has_underscore t
  end.

(** [s.split('_')]: the pieces between underscores, at least one. *)
Fixpoint split_underscore (s : string) : list string :=
  match s with
  | EmptyString => [EmptyString]
  | String c t =>
      if Ascii.eqb c underscore then EmptyString :: split_underscore t
      else match split_underscore t with
           | [] => [String c EmptyString]
           | p :: ps => String c p :: ps
           end
  end.

(** [''.join(pieces)] *)
Definition join (pieces : list string) : string :=
  fold_right String.append EmptyString pieces.

Definition camel (snake_str : string) : string :=
  if negb (has_underscore snake_str) then snake_str
  else match split_underscore snake_str with
       | [] => EmptyString
       | first :: others => join (lower first :: map title others)
       end.

(** ** [_convert_camel_case] (lines 176-187)

    The method rewrites its argument in place.  On a dict it walks a snapshot
    [list(x.items())]: every value of the snapshot is converted (in place, so
    the dict sees it wherever it still holds that value), and a key whose
    camel form differs is deleted and its value stored under the camel key.
    [rekey] is that loop over the snapshot, started on the dict whose values
    are already converted. *)

Definition rekey_step (x : dict) (kv : string * value) : dict :=
  let camel_k := camel (fst kv) in
  if String.eqb camel_k (fst kv) then x
  else Dict.set camel_k (snd kv) (Dict.del (fst kv) x).

Definition rekey (items : dict) : dict := fold_left rekey_step items items.

Fixpoint _convert_camel_case (x : value) : value :=
  match x with
  | VDict d =>
      VDict (rekey (map (fun kv => (fst kv, _convert_camel_case (snd kv))) d))
  | VList l => VList (map _convert_camel_case l)
  | VTuple l => VTuple (map _convert_camel_case l)
  | _ => x
  end.

(** ** What the mixin reads from its viewset

    [fields] is the serializer metadata ([get_serializer_info]): one dict per
    field, in the serializer's order.  A defaults map sends a field id to a
    dict of overrides.  A layout or a defaults map may be given as is or as a
    function of the metadata. *)

Abbreviation fields := (list (string * dict)).
Abbreviation defaults := (list (string * dict)).

Inductive layout_source : Type :=
| LayoutValue (layout : value)
| LayoutFunction (f : fields -> value).

Inductive defaults_source : Type :=
| DefaultsNone
| DefaultsValue (d : defaults)
| DefaultsFunction (f : fields -> defaults).

(** What [model._meta.get_field] finds; [isinstance(field, TextField)]
    separates the two. *)
Inductive model_field : Type := TextField | OtherField.

Definition is_TextField (f : model_field) : bool :=
  match f with TextField => true | OtherField => false end.

(** The model class of the queryset: its fields, by name. *)
Record model : Type := {
  model_fields : list (string * model_field)
}.

Record linked_form_def (V : Type) : Type := {
  lf_viewset : V;                (* form_def['viewset'] *)
  lf_link_id : option string;    (* form_def['link_id'], when present *)
  lf_form_id : string            (* form_def['form_id'] *)
}.
Arguments lf_viewset {V} _.
Arguments lf_link_id {V} _.
Arguments lf_form_id {V} _.

#[local] Unset Elimination Schemes.
Inductive viewset : Type := Viewset {
  form_layout : layout_source;
  form_title : value;
  form_defaults : defaults_source;
  form_layouts : list (string * layout_source);
  form_titles : dict;
  form_defaults_map : list (string * defaults_source);
  linked_forms : list (string * linked_form_def viewset);
  (* collaborators *)
  serializer_info : fields;        (* metadata_class().get_serializer_info(...) *)
  queryset_model : option model;   (* get_queryset().model *)
  verbose_name : string;           (* serializer.Meta.model._meta.verbose_name *)
  form_actions : list (string * string)
    (* url_path of the action tagged with each angular_form_id *)
}.
#[local] Set Elimination Schemes.

Record request : Type := {
  path : string;
  GET : dict;
  data : dict
}.

(** [gettext]: no translation catalogue is active. *)
Definition gettext (s : string) : string := s.

(** [template % arg] for a template with one [%s]. *)
Fixpoint percent_s (template arg : string) : string :=
  match template with
  | EmptyString => EmptyString
  | String c t =>
      match t with
      | String c' t' =>
          if Ascii.eqb c "%"%char && Ascii.eqb c' "s"%char then arg ++ t'
          else String c (percent_s t arg)
      | EmptyString => template
      end
  end.

(** ** [_get_field_layout] (lines 189-190) *)
Definition _get_field_layout (field_name : string) (field : dict) : value :=
  VDict [("id", VStr field_name)].

(** ** [_transform_layout] (lines 193-244) *)

(** Lines 198-199: [if 'id' in layout and layout['id'] in form_defaults:
    layout.update(form_defaults[layout['id']])]. *)
Definition apply_form_defaults (layout : dict) (form_defaults : defaults)
  : result dict :=
  match Dict.get "id" layout with
  | None => Ok layout
  | Some id =>
      if negb (hashable id) then Raise TypeError
      else match id with
           | VStr s =>
               match Dict.get s form_defaults with
               | Some overrides => Ok (Dict.update layout overrides)
               | None => Ok layout
               end
           | _ => Ok layout
           end
  end.

(** Lines 201-203: every callable value is replaced by what it returns. *)
Definition call (v : value) : value :=
  match v with VCallable r => r | _ => v end.

Definition call_values (layout : dict) : dict :=
  map (fun kv => (fst kv, call (snd kv))) layout.

(** Line 205 *)
Definition layout_type (layout : dict) : value :=
  get_default "type" (VStr "string") layout.

(** [model._meta.get_field(name)]: the name is looked up in the model's
    table of fields, a dict.  A name that cannot be hashed raises [TypeError]
    there; a name the table does not have raises [FieldDoesNotExist]. *)
Definition get_field (m : model) (name : value) : result model_field :=
  if negb (hashable name) then Raise TypeError
  else match name with
       | VStr s =>
           match Dict.get s (model_fields m) with
           | Some field => Ok field
           | None => Raise FieldDoesNotExist
           end
       | _ => Raise FieldDoesNotExist
       end.

(** Lines 216-227.  The [try] covers [layout['id']] and the lookup, and
    catches [FieldDoesNotExist] only. *)
Definition string_or_textarea (self : viewset) (layout : dict) : result value :=
  match queryset_model self with
  | Some model =>
      match (id <- getitem "id" layout ;; get_field model id) with
      | Ok field =>
          if is_TextField field
          then Ok (VDict (Dict.set "type" (VStr "textarea") layout))
          else Ok (VDict layout)
      | Raise FieldDoesNotExist => Ok (VDict layout)   (* except: pass *)
      | Raise e => Raise e
      | OutOfFuel => OutOfFuel
      end
  | None => Ok (VDict layout)
  end.

Fixpoint _transform_layout (fuel : nat) (self : viewset) (layout : value)
    (form_defaults : defaults) (wrap_array : bool) : result value :=
  match fuel with
  | O => OutOfFuel
  | S fuel =>
      match layout with
      | VDict layout =>
          layout <- apply_form_defaults layout form_defaults ;;
          let layout := call_values layout in
          let layout_type := layout_type layout in
          if is_str layout_type "fieldset" || is_str layout_type "group" then
            controls <- getitem "controls" layout ;;
            controls <- _transform_layout fuel self controls form_defaults false ;;
            Ok (VDict (Dict.set "controls" controls layout))
          else if is_str layout_type "columns" then
            columns <- getitem "columns" layout ;;
            controls <- _transform_layout fuel self columns form_defaults false ;;
            Ok (VDict (Dict.del "columns" (Dict.set "controls" controls layout)))
          else if is_str layout_type "string" then
            string_or_textarea self layout
          else Ok (VDict layout)
      | VList items | VTuple items =>
          controls <- mapM (fun l => _transform_layout fuel self l form_defaults true)
                           items ;;
          if wrap_array
          then Ok (VDict [("type", VStr "group"); ("controls", VList controls)])
          else Ok (VList controls)
      | VStr s =>
          _transform_layout fuel self (VDict [("id", VStr s)]) form_defaults true
      | _ => Raise (NotImplementedError layout)
      end
  end.

(** ** [_get_form_layout] (lines 148-174) *)

Definition layout_configured (src : layout_source) : bool :=
  match src with
  | LayoutValue v => truthy v
  | LayoutFunction _ => true
  end.

(** Lines 149-154 *)
Definition selected_layout (self : viewset) (form_name : string)
  : result layout_source :=
  if negb (String.eqb form_name EmptyString) then
    match Dict.get form_name (form_layouts self) with
    | Some src => Ok src
    | None => Raise (KeyError form_name)
    end
  else Ok (form_layout self).

(** Lines 151, 154 and 156-160 *)
Definition selected_defaults (self : viewset) (form_name : string)
    (fields_info : fields) : defaults :=
  let form_defaults :=
    if negb (String.eqb form_name EmptyString) then
      match Dict.get form_name (form_defaults_map self) with
      | Some src => src
      | None => DefaultsNone
      end
    else form_defaults self in
  match form_defaults with
  | DefaultsNone => []
  | DefaultsValue d => d
  | DefaultsFunction f => f fields_info
  end.

(** Lines 169-170: the layout generated from the fields, one item per field
    whose [read_only] is false, in the order of the metadata. *)
Fixpoint generated_layout_items (fields_info : fields) : result (list value) :=
  match fields_info with
  | [] => Ok []
  | (field_name, field) :: rest =>
      read_only <- getitem "read_only" field ;;
      items <- generated_layout_items rest ;;
      Ok (if negb (truthy read_only)
          then _get_field_layout field_name field :: items
          else items)
  end.

Definition _get_form_layout (fuel : nat) (self : viewset) (fields_info : fields)
    (form_name : string) : result value :=
  form_layout <- selected_layout self form_name ;;
  let form_defaults := selected_defaults self form_name fields_info in
  layout <-
    (if layout_configured form_layout then
       match form_layout with
       | LayoutFunction f => Ok (f fields_info)
       | LayoutValue v => Ok v
       end
     else
       items <- generated_layout_items fields_info ;;
       Ok (VList items)) ;;
  _transform_layout fuel self layout form_defaults false.

(** ** [_decorate_layout] (lines 367-395) *)

(** The hook [_decorate_layout_item]: does nothing in the mixin. *)
Definition _decorate_layout_item (item : dict) : dict := item.

(** [fields_info.get(id, {})] *)
Definition field_metadata (fields_info : fields) (id : value) : result dict :=
  if negb (hashable id) then Raise TypeError
  else match id with
       | VStr s =>
           match Dict.get s fields_info with
           | Some md => Ok md
           | None => Ok []
           end
       | _ => Ok []
       end.

(** Lines 380-381: the metadata of the field, overlaid with the layout node. *)
Definition merged_metadata (layout : dict) (fields_info : fields) : result dict :=
  id <- getitem "id" layout ;;
  md <- field_metadata fields_info id ;;
  Ok (Dict.update md layout).

(** Line 387: [x.get('label', None) or x.get('display_name', None)] *)
Definition choice_label (x : dict) : value :=
  py_or (get_default "label" VNone x) (get_default "display_name" VNone x).

(** Lines 386-389: one entry of the comprehension. *)
Definition decorate_choice (x : value) : result value :=
  match x with
  | VDict x =>
      let label := choice_label x in
      v <- getitem "value" x ;;
      Ok (VDict [("label", label); ("value", v)])
  | _ => Raise AttributeError   (* no [get] on anything but a dict *)
  end.

(** [for x in md['choices']], on a value that passed the truth test. *)
Definition iterate (v : value) : result (list value) :=
  match v with
  | VList l | VTuple l => Ok l
  | VDict d => Ok (map (fun kv => VStr (fst kv)) d)
  | VStr s => Ok (map (fun c => VStr (String c EmptyString)) (list_ascii_of_string s))
  | _ => Raise TypeError
  end.

(** Lines 384-390 *)
Definition decorate_choices (md : dict) : result dict :=
  if truthy (get_default "choices" VNone md) then
    choices <- getitem "choices" md ;;
    items <- iterate choices ;;
    choices <- mapM decorate_choice items ;;
    Ok (Dict.set "choices" (VList choices) md)
  else Ok md.

(** Lines 380-392: a node that is not a container. *)
Definition decorate_leaf (layout : dict) (fields_info : fields) : result value :=
  md <- merged_metadata layout fields_info ;;
  type <- getitem "type" md ;;
  let md := if is_str type "choice" then Dict.set "type" (VStr "select") md else md in
  md <- decorate_choices md ;;
  Ok (VDict (_decorate_layout_item md)).

(** Line 374: [layout.get('type', None) in ('fieldset', 'columns', 'group')] *)
Definition is_container (layout : dict) : bool :=
  let t := get_default "type" VNone layout in
  is_str t "fieldset" || is_str t "columns" || is_str t "group".

Fixpoint _decorate_layout (fuel : nat) (layout : value) (fields_info : fields)
  : result value :=
  match fuel with
  | O => OutOfFuel
  | S fuel =>
      match layout with
      | VList items =>
          ret <- mapM (fun it => _decorate_layout fuel it fields_info) items ;;
          Ok (VList ret)
      | VDict layout =>
          if is_container layout then
            controls <- getitem "controls" layout ;;
            controls <- _decorate_layout fuel controls fields_info ;;
            Ok (VDict (_decorate_layout_item (Dict.set "controls" controls layout)))
          else decorate_leaf layout fields_info
      | _ => Ok VNone   (* neither branch taken: the method falls off its end *)
      end
  end.

(** ** [_get_form_title] (lines 246-261) *)

(** [obj[key]] with a string key. *)
Definition subscript (obj : value) (key : string) : result value :=
  match obj with
  | VDict d => getitem key d
  | _ => Raise TypeError
  end.

Definition _get_form_title (self : viewset) (has_instance : value)
    (form_name : string) : result value :=
  let form_title_ := form_title self in
  let form_title_ :=
    if negb (String.eqb form_name EmptyString) && truthy (VDict (form_titles self))
    then get_default form_name VNone (form_titles self)
    else form_title_ in
  if truthy form_title_ then
    subscript (form_title self) (if truthy has_instance then "edit" else "create")
  else
    let name := verbose_name self in
    if truthy has_instance
    then Ok (VStr (percent_s (gettext "Editing %s") name))
    else Ok (VStr (percent_s (gettext "Creating a new %s") name)).

(** ** [_get_actions] (lines 264-290) *)
Definition _get_actions (has_instance : value) : value :=
  if truthy has_instance then
    VList [VDict [("id", VStr "save"); ("color", VStr "primary");
                  ("label", VStr (gettext "Save"))];
           VDict [("id", VStr "cancel"); ("label", VStr (gettext "Cancel"));
                  ("cancel", VBool true)]]
  else
    VList [VDict [("id", VStr "create"); ("color", VStr "primary");
                  ("label", VStr (gettext "Create"))];
           VDict [("id", VStr "cancel"); ("label", VStr (gettext "Cancel"));
                  ("cancel", VBool true)]].

(** ** [_get_url_by_form_id] (lines 331-341; the cache does not change what
    it returns) *)

Fixpoint endswith_slash (s : string) : bool :=
  match s with
  | EmptyString => false
  | String c EmptyString => Ascii.eqb c "/"%char
  | String _ t => endswith_slash t
  end.

Definition _get_url_by_form_id (self : viewset) (form_id : string) : string :=
  if String.eqb form_id EmptyString then EmptyString
  else match Dict.get form_id (form_actions self) with
       | None => EmptyString
       | Some url_path =>
           if endswith_slash url_path then url_path else url_path ++ "/"
       end.

(** ** The pattern of line 359 and [re.sub]

    A backtracking matcher for the constructs the pattern uses.  The
    continuation receives what is left of the subject; the first success in
    the matcher's order of preference is the match. *)

Inductive regex : Type :=
| Lit (text : string)         (* literal characters *)
| NotCharPlus (c : ascii)     (* [^c]+ *)
| Opt (r : regex)             (* r? *)
| Seq (r1 r2 : regex)
| EndAnchor.                  (* $ *)

Fixpoint strip_prefix (p s : string) : option string :=
  match p, s with
  | EmptyString, _ => Some s
  | String a p', String b s' => if Ascii.eqb a b then strip_prefix p' s' else None
  | String _ _, EmptyString => None
  end.

(** [[^c]*], longest first. *)
Fixpoint not_char_star {A : Type} (c : ascii) (s : string)
    (k : string -> option A) : option A :=
  match s with
  | EmptyString => k s
  | String a t =>
      if Ascii.eqb a c then k s
      else match not_char_star c t k with
           | Some r => Some r
           | None => k s
           end
  end.

Definition newline : string := String (ascii_of_nat 10) EmptyString.

Fixpoint re_match {A : Type} (r : regex) (s : string)
    (k : string -> option A) : option A :=
  match r with
  | Lit text =>
      match strip_prefix text s with
      | Some s' => k s'
      | None => None
      end
  | NotCharPlus c =>
      match s with
      | String a t => if Ascii.eqb a c then None else not_char_star c t k
      | EmptyString => None
      end
  | Opt r' =>
      match re_match r' s k with
      | Some x => Some x
      | None => k s
      end
  | Seq r1 r2 => re_match r1 s (fun s' => re_match r2 s' k)
  | EndAnchor =>
      (* the end of the subject, or just before a newline that ends it *)
      if String.eqb s EmptyString || String.eqb s newline then k s else None
  end.

(** [re.sub(pattern, '', s)] for a pattern that cannot match the empty
    string: every match, leftmost first, is cut out. *)
Fixpoint re_sub_empty (fuel : nat) (r : regex) (s : string) : string :=
  match fuel with
  | O => s
  | S fuel =>
      match re_match r s Some with
      | Some rest => re_sub_empty fuel r rest
      | None =>
          match s with
          | EmptyString => EmptyString
          | String c t => String c (re_sub_empty fuel r t)
          end
      end
  end.

(** [r'/form(/[^/]+)?/?$'] *)
Definition form_suffix : regex :=
  Seq (Lit "/form")
      (Seq (Opt (Seq (Lit "/") (NotCharPlus "/"%char)))
           (Seq (Opt (Lit "/")) EndAnchor)).

(** Lines 357-360 *)
Definition linked_form_path (request_path form_name : string) : string :=
  let path := re_sub_empty (S (String.length request_path)) form_suffix request_path in
  path ++ "/" ++ form_name ++ "/".

(** ** [_linked_form_metadata] (lines 343-364) and [_get_form_metadata]
    (lines 292-329) *)

(** Lines 351-354 *)
Definition linked_form_link_id (request_ : request)
    (form_def : linked_form_def viewset) : value :=
  match lf_link_id form_def with
  | Some name =>
      py_or (get_default name VNone (GET request_))
            (get_default name VNone (data request_))
  | None => VNone
  end.

Section linked.
(** [viewset._get_form_metadata], on the viewset the form is linked to. *)
Variable get_form_metadata :
  viewset -> request -> value -> string -> string -> result value.

Definition _linked_form_metadata (request_ : request)
    (form_def : linked_form_def viewset) (form_name : string) : result value :=
  let viewset_ := lf_viewset form_def in
  let link_id := linked_form_link_id request_ form_def in
  let path := linked_form_path (path request_) form_name in
  get_form_metadata viewset_ request_ link_id (lf_form_id form_def) path.
End linked.

(** [not self.form_layouts]: an empty table is false. *)
Definition truthy_layouts (t : list (string * layout_source)) : bool :=
  match t with [] => false | _ => true end.

Definition form_layouts_not_configured : string :=
  "Form layouts not configured. Please add form_layouts attribute on the viewset class".

(** Lines 306-329 *)
Definition build_form_metadata (fuel : nat) (self : viewset)
    (has_instance : value) (form_name base_path : string) : result value :=
  let fields_info := serializer_info self in
  layout <- _get_form_layout fuel self fields_info form_name ;;
  layout <- _decorate_layout fuel layout fields_info ;;
  let ret := Dict.set "layout" (_convert_camel_case layout) [] in
  formTitle <- _get_form_title self has_instance form_name ;;
  let ret := Dict.set "formTitle" formTitle ret in
  let ret := Dict.set "actions" (_get_actions has_instance) ret in
  let ret := Dict.set "method"
               (if truthy has_instance then VStr "patch" else VStr "post") ret in
  let ret := Dict.set "hasInitialData" has_instance ret in
  let ret := Dict.set "djangoUrl"
               (VStr (base_path ++ _get_url_by_form_id self form_name)) ret in
  Ok (VDict ret).

Fixpoint _get_form_metadata (fuel : nat) (self : viewset) (request_ : request)
    (has_instance : value) (form_name base_path : string) : result value :=
  match fuel with
  | O => OutOfFuel
  | S fuel =>
      if negb (String.eqb form_name EmptyString) then
        match Dict.get form_name (linked_forms self) with
        | Some form_def =>
            _linked_form_metadata (_get_form_metadata fuel) request_ form_def form_name
        | None =>
            if negb (truthy_layouts (form_layouts self)) then
              Raise (Http404 form_layouts_not_configured)
            else if negb (Dict.mem form_name (form_layouts self)) then
              Raise (Http404 (percent_s "Form with name %s not found" form_name))
            else build_form_metadata fuel self has_instance form_name base_path
        end
      else build_form_metadata fuel self has_instance form_name base_path
  end.

(** ** The routes (lines 114-143) *)

(** [path[:-1]] *)
Fixpoint drop_last (s : string) : string :=
  match s with
  | EmptyString => EmptyString
  | String c EmptyString => EmptyString
  | String c t => String c (drop_last t)
  end.

(** [p[:p.rfind('/') + 1]] *)
Fixpoint through_last_slash (p : string) : string :=
  match p with
  | EmptyString => EmptyString
  | String c t =>
      let head := through_last_slash t in
      if negb (String.eqb head EmptyString) then String c head
      else if Ascii.eqb c "/"%char then String c EmptyString
      else EmptyString
  end.

Fixpoint all_slashes (s : string) : bool :=
  match s with
  | EmptyString => true
  | String c t => Ascii.eqb c "/"%char && all_slashes t
  end.

(** [s.rstrip('/')] *)
Fixpoint rstrip_slash (s : string) : string :=
  match s with
  | EmptyString => EmptyString
  | String c t =>
      let r := rstrip_slash t in
      if String.eqb r EmptyString && Ascii.eqb c "/"%char then EmptyString
      else String c r
  end.

(** [os.path.dirname] *)
Definition dirname (p : string) : string :=
  let head := through_last_slash p in
  if negb (String.eqb head EmptyString) && negb (all_slashes head)
  then rstrip_slash head
  else head.

Definition _base_path (path_ : string) (level : nat) : string :=
  let path_ := if endswith_slash path_ then drop_last path_ else path_ in
  (Nat.iter level dirname path_ ++ "/")%string.

(** [form_name or ''], for the [form_name=None] of the named routes. *)
Definition or_empty (form_name : option string) : string :=
  match form_name with
  | Some s => s
  | None => EmptyString
  end.

(** The four routes; [Response(data)] carries [data]. *)
Definition form (fuel : nat) (self : viewset) (request_ : request) : result value :=
  _get_form_metadata fuel self request_ (VBool true) EmptyString
    (_base_path (path request_) 1).

Definition form_list (fuel : nat) (self : viewset) (request_ : request)
  : result value :=
  _get_form_metadata fuel self request_ (VBool false) EmptyString
    (_base_path (path request_) 1).

Definition form_with_name (fuel : nat) (self : viewset) (request_ : request)
    (form_name : option string) : result value :=
  _get_form_metadata fuel self request_ (VBool true) (or_empty form_name)
    (_base_path (path request_) 2).

Definition form_list_with_name (fuel : nat) (self : viewset) (request_ : request)
    (form_name : option string) : result value :=
  _get_form_metadata fuel self request_ (VBool false) (or_empty form_name)
    (_base_path (path request_) 2).

(** ** Predicates the statements use *)

(** No key, at any depth that [_convert_camel_case] visits, has an underscore. *)
Fixpoint normalized (x : value) : bool :=
  match x with
  | VDict d =>
      forallb (fun kv => negb (has_underscore (fst kv)) && normalized (snd kv)) d
  | VList l | VTuple l => forallb normalized l
  | _ => true
  end.

(** The items of a converted dict. *)
Definition converted_items (d : dict) : dict :=
  rekey (map (fun kv => (fst kv, _convert_camel_case (snd kv))) d).

(** The metadata entries whose [read_only] is false. *)
Definition editable_fields (fields_info : fields) : fields :=
  filter (fun name_field =>
            negb (truthy (get_default "read_only" VNone (snd name_field))))
         fields_info.

(** The id of a layout node. *)
Definition node_id (node : value) : option value :=
  match node with
  | VDict d => Dict.get "id" d
  | _ => None
  end.

(** A record of the defaults map that leaves a field reference a leaf under
    its own id: it has no [id], and the merged node is no container. *)
Definition keeps_field_ref (name : string) (form_defaults : defaults) : Prop :=
  match Dict.get name form_defaults with
  | None => True
  | Some overrides =>
      Dict.get "id" overrides = None /\
      (let t := layout_type
                  (call_values (Dict.update [("id", VStr name)] overrides)) in
       is_str t "fieldset" || is_str t "group" || is_str t "columns" = false)
  end.

(** A URL segment: not empty, without a slash or a newline. *)
Fixpoint segment_chars (s : string) : bool :=
  match s with
  | EmptyString => true
  | String c t =>
      negb (Ascii.eqb c "/"%char) && negb (Ascii.eqb c (ascii_of_nat 10))
      && segment_chars t
  end.

Definition is_segment (s : string) : bool :=
  negb (String.eqb s EmptyString) && segment_chars s.

Fixpoint count_slash (s : string) : nat :=
  match s with
  | EmptyString => 0
  | String c t => (if Ascii.eqb c "/"%char then 1 else 0) + count_slash t
  end.

Fixpoint last_char (s : string) : option ascii :=
  match s with
  | EmptyString => None
  | String c t => match last_char t with Some l => Some l | None => Some c end
  end.

(** [p.endswith('/form')] *)
Fixpoint endswith_form (p : string) : bool :=
  match p with
  | EmptyString => false
  | String _ p' => String.eqb p "/form" || endswith_form p'
  end.

(** [ok] holds of every suffix of [p] but the empty one. *)
Fixpoint all_suffixes (ok : string -> Prop) (p : string) : Prop :=
  match p with
  | EmptyString => True
  | String _ p' => ok p /\ all_suffixes ok p'
  end.

(** The end of the pattern, [/?$], as the continuation of what precedes it. *)
Definition tail_k (s : string) : option string :=
  re_match (Seq (Opt (Lit "/")) EndAnchor) s Some.

(** ** Viewsets the examples run on *)

(** A model with a long-text column [notes] and a short column [name]. *)
Definition notes_model : model :=
  {| model_fields := [("notes", TextField); ("name", OtherField)] |}.

(** A viewset that configures nothing. *)
Definition bare_viewset : viewset :=
  {| form_layout := LayoutValue VNone;
     form_title := VNone;
     form_defaults := DefaultsValue [];
     form_layouts := [];
     form_titles := [];
     form_defaults_map := [];
     linked_forms := [];
     serializer_info :=
       [("a", [("type", VStr "string"); ("read_only", VBool false)]);
        ("b", [("type", VStr "integer"); ("read_only", VBool true)]);
        ("c", [("type", VStr "string"); ("read_only", VBool false)])];
     queryset_model := Some notes_model;
     verbose_name := "Invoice";
     form_actions := [] |}.

Definition with_form_title (title : value) (self : viewset) : viewset :=
  {| form_layout := form_layout self;
     form_title := title;
     form_defaults := form_defaults self;
     form_layouts := form_layouts self;
     form_titles := form_titles self;
     form_defaults_map := form_defaults_map self;
     linked_forms := linked_forms self;
     serializer_info := serializer_info self;
     queryset_model := queryset_model self;
     verbose_name := verbose_name self;
     form_actions := form_actions self |}.

Definition with_form_titles (titles : dict) (self : viewset) : viewset :=
  {| form_layout := form_layout self;
     form_title := form_title self;
     form_defaults := form_defaults self;
     form_layouts := form_layouts self;
     form_titles := titles;
     form_defaults_map := form_defaults_map self;
     linked_forms := linked_forms self;
     serializer_info := serializer_info self;
     queryset_model := queryset_model self;
     verbose_name := verbose_name self;
     form_actions := form_actions self |}.

Definition with_form_layouts (layouts : list (string * layout_source))
    (self : viewset) : viewset :=
  {| form_layout := form_layout self;
     form_title := form_title self;
     form_defaults := form_defaults self;
     form_layouts := layouts;
     form_titles := form_titles self;
     form_defaults_map := form_defaults_map self;
     linked_forms := linked_forms self;
     serializer_info := serializer_info self;
     queryset_model := queryset_model self;
     verbose_name := verbose_name self;
     form_actions := form_actions self |}.

Definition with_linked_forms (linked : list (string * linked_form_def viewset))
    (self : viewset) : viewset :=
  {| form_layout := form_layout self;
     form_title := form_title self;
     form_defaults := form_defaults self;
     form_layouts := form_layouts self;
     form_titles := form_titles self;
     form_defaults_map := form_defaults_map self;
     linked_forms := linked;
     serializer_info := serializer_info self;
     queryset_model := queryset_model self;
     verbose_name := verbose_name self;
     form_actions := form_actions self |}.

Definition two_titles : value :=
  VDict [("create", VStr "New invoice"); ("edit", VStr "Change invoice")].

Definition bare_request : request :=
  {| path := "/api/invoices/form/simple/"; GET := []; data := [] |}.

(** A viewset whose form "address" is served by [bare_viewset]. *)
Definition linking_viewset : viewset :=
  with_linked_forms
    [("address", {| lf_viewset := bare_viewset;
                    lf_link_id := Some "invoice";
                    lf_form_id := EmptyString |})]
    bare_viewset.

Definition address_request : request :=
  {| path := "/api/invoices/7/form/address/";
     GET := [("invoice", VStr "7")];
     data := [] |}.

(** A viewset class that sets [form_defaults]. *)
Definition with_form_defaults (d : defaults_source) (self : viewset) : viewset :=
  {| form_layout := form_layout self;
     form_title := form_title self;
     form_defaults := d;
     form_layouts := form_layouts self;
     form_titles := form_titles self;
     form_defaults_map := form_defaults_map self;
     linked_forms := linked_forms self;
     serializer_info := serializer_info self;
     queryset_model := queryset_model self;
     verbose_name := verbose_name self;
     form_actions := form_actions self |}.

(** ** The layout helpers (lines 72-110) *)

Definition fieldset (title controls : value) : value :=
  VDict [("type", VStr "fieldset"); ("label", title); ("controls", controls)].

(** [columns]: the controls are its arguments, which arrive as a tuple. *)
Definition columns (controls : list value) : value :=
  VDict [("type", VStr "columns"); ("columns", VTuple controls)].

(** [group]: returns the tuple of its arguments. *)
Definition group (controls : list value) : value := VTuple controls.

(** ** Shapes the statements use *)

#[local] Unset Elimination Schemes.
(** A layout the decorator can walk: lists of such layouts, containers whose
    [controls] is such a layout, and any other mapping. *)
Inductive decorable : value -> Prop :=
| decorable_list l : Forall decorable l -> decorable (VList l)
| decorable_container (d : dict) c :
    is_container d = true -> Dict.get "controls" d = Some c -> decorable c ->
    decorable (VDict d)
| decorable_leaf (d : dict) : is_container d = false -> decorable (VDict d).
#[local] Set Elimination Schemes.

(** The keys of an assembled response, in the order they are set. *)
Definition response_keys : list string :=
  ["layout"; "formTitle"; "actions"; "method"; "hasInitialData"; "djangoUrl"].

(** The response the assembler builds from its parts (lines 318-326). *)
Definition response (layout title has_instance : value) (url : string) : value :=
  VDict [("layout", layout);
         ("formTitle", title);
         ("actions", _get_actions has_instance);
         ("method", if truthy has_instance then VStr "patch" else VStr "post");
         ("hasInitialData", has_instance);
         ("djangoUrl", VStr url)].

(** A metadata entry without its [read_only] flag. *)
Definition lacks_read_only (name_field : string * dict) : Prop :=
  Dict.get "read_only" (snd name_field) = None.

(** ['/form' in s] *)
Fixpoint contains_form (s : string) : bool :=
  match strip_prefix "/form" s with
  | Some _ => true
  | None =>
      match s with
      | EmptyString => false
      | String _ t => contains_form t
      end
  end.


(** The value of the last item of a dict whose key [camel] renames to [c]. *)
Fixpoint last_renamed (c : string) (items : dict) : option value :=
  match items with
  | [] => None
  | (k, v) :: t =>
      match last_renamed c t with
      | Some w => Some w
      | None =>
          if has_underscore k && String.eqb (camel k) c then Some v else None
      end
  end.

(** ['_'.join(pieces)] *)
Fixpoint join_underscore (pieces : list string) : string :=
  match pieces with
  | [] => EmptyString
  | [p] => p
  | p :: ps => p ++ "_" ++ join_underscore ps
  end.

(** * Properties *)

(** ** Dictionaries *)

Module DictFacts.
Import Dict.
Section facts.
Context {A : Type}.
Implicit Types (d : list (string * A)) (k : string) (v : A).

Lemma get_set_eq k v d : get k (set k v d) = Some v.
Proof.
  induction d as [|[k' v'] t IH]; simpl.
  - now rewrite String.eqb_refl.
  - destruct (String.eqb k' k) eqn:E; simpl; rewrite E; auto.
Qed.

Lemma get_set_ne k k' v d : k <> k' -> get k (set k' v d) = get k d.
Proof.
  intros Hne. induction d as [|[k0 v0] t IH]; simpl.
  - destruct (String.eqb k' k) eqn:E; auto.
    apply String.eqb_eq in E. congruence.
  - destruct (String.eqb k0 k') eqn:E; simpl.
    + apply String.eqb_eq in E. subst k0.
      destruct (String.eqb k' k) eqn:E'; auto.
      apply String.eqb_eq in E'. congruence.
    + now rewrite IH.
Qed.

Lemma get_del_eq k d : get k (del k d) = None.
Proof.
  unfold del. induction d as [|[k' v'] t IH]; simpl; auto.
  destruct (String.eqb k' k) eqn:E; simpl; auto. now rewrite E.
Qed.

Lemma get_del_ne k k' d : k <> k' -> get k (del k' d) = get k d.
Proof.
  intros Hne. unfold del. induction d as [|[k0 v0] t IH]; simpl; auto.
  destruct (String.eqb k0 k') eqn:E; simpl.
  - apply String.eqb_eq in E. subst k0.
    destruct (String.eqb k' k) eqn:E'; auto.
    apply String.eqb_eq in E'. congruence.
  - now rewrite IH.
Qed.

Lemma get_update_absent k d other :
  get k other = None -> get k (update d other) = get k d.
Proof.
  unfold update. revert d.
  induction other as [|[k' v'] t IH]; simpl; intros d H; auto.
  destruct (String.eqb k' k) eqn:E; [discriminate|].
  rewrite IH by assumption. apply get_set_ne.
  intros ->. now rewrite String.eqb_refl in E.
Qed.

Lemma get_update_present k v d other :
  NoDup (keys other) -> get k other = Some v ->
  get k (update d other) = Some v.
Proof.
  unfold update. revert d.
  induction other as [|[k' v'] t IH]; simpl; intros d Hnd H; [discriminate|].
  inversion Hnd as [|? ? Hnotin Hnd']; subst.
  destruct (String.eqb k' k) eqn:E.
  - apply String.eqb_eq in E. subst k'. inversion H; subst v'.
    assert (Hnone : get k t = None).
    { clear -Hnotin. induction t as [|[k0 v0] t IH]; simpl; auto.
      destruct (String.eqb k0 k) eqn:E.
      - apply String.eqb_eq in E. subst. exfalso. apply Hnotin. now left.
      - apply IH. intros Hin. apply Hnotin. now right. }
    change (get k (update (set k v d) t) = Some v).
    rewrite get_update_absent by assumption. apply get_set_eq.
  - now apply IH.
Qed.

Lemma get_Some_In k v d : get k d = Some v -> In (k, v) d.
Proof.
  induction d as [|[k' v'] t IH]; simpl; [discriminate|].
  destruct (String.eqb k' k) eqn:E.
  - apply String.eqb_eq in E. intros [= ->]. subst. now left.
  - intros H. right. auto.
Qed.

Lemma get_None_notin k d : get k d = None -> ~ In k (keys d).
Proof.
  induction d as [|[k' v'] t IH]; simpl; auto.
  destruct (String.eqb k' k) eqn:E; [discriminate|].
  intros H [->|Hin]; [now rewrite String.eqb_refl in E | now apply IH].
Qed.

Lemma In_keys_get k d : In k (keys d) -> exists v, get k d = Some v.
Proof.
  induction d as [|[k' v'] t IH]; simpl; [tauto|].
  intros [->|Hin].
  - rewrite String.eqb_refl. eauto.
  - destruct (String.eqb k' k); eauto.
Qed.

Lemma Forall_set (P : string * A -> Prop) k v d :
  P (k, v) -> Forall P d -> Forall P (set k v d).
Proof.
  intros Hkv. induction 1 as [|[k' v'] t Hx Ht IH]; simpl.
  - repeat constructor; auto.
  - destruct (String.eqb k' k) eqn:E.
    + apply String.eqb_eq in E. subst. constructor; auto.
    + constructor; auto.
Qed.

Lemma Forall_del (P : string * A -> Prop) k d :
  Forall P d -> Forall P (del k d).
Proof.
  unfold del. induction 1 as [|[k' v'] t Hx Ht IH]; simpl; auto.
  destruct (String.eqb k' k); simpl; auto.
Qed.

Lemma In_del k kv d : In kv (del k d) -> In kv d /\ fst kv <> k.
Proof.
  unfold del. rewrite filter_In. intros [Hin Hne]. split; auto.
  intros Heq. rewrite Heq, String.eqb_refl in Hne. discriminate.
Qed.
End facts.
End DictFacts.

(** ** The naming normalizer *)

Section camel_facts.

Lemma to_lower_underscore c :
  Ascii.eqb c underscore = false -> Ascii.eqb (to_lower c) underscore = false.
Proof. destruct c as [[] [] [] [] [] [] [] []]; vm_compute; auto. Qed.

Lemma to_upper_underscore c :
  Ascii.eqb c underscore = false -> Ascii.eqb (to_upper c) underscore = false.
Proof. destruct c as [[] [] [] [] [] [] [] []]; vm_compute; auto. Qed.

Lemma has_underscore_append a b :
  has_underscore (a ++ b) = has_underscore a || has_underscore b.
Proof.
  induction a as [|c a IH]; simpl; auto.
  now rewrite IH, orb_assoc.
Qed.

Lemma has_underscore_lower s :
  has_underscore s = false -> has_underscore (lower s) = false.
Proof.
  induction s as [|c s IH]; simpl; auto.
  intros H. apply orb_false_iff in H as [Hc Hs].
  now rewrite to_lower_underscore, IH.
Qed.

Lemma has_underscore_title_from b s :
  has_underscore s = false -> has_underscore (title_from b s) = false.
Proof.
  revert b. induction s as [|c s IH]; simpl; auto.
  intros b H. apply orb_false_iff in H as [Hc Hs].
  rewrite IH by assumption.
  destruct b; [rewrite to_lower_underscore | rewrite to_upper_underscore]; auto.
Qed.

Lemma split_underscore_pieces s :
  Forall (fun p => has_underscore p = false) (split_underscore s).
Proof.
  induction s as [|c s IH]; simpl.
  - repeat constructor.
  - destruct (Ascii.eqb c underscore) eqn:E.
    + constructor; auto.
    + destruct (split_underscore s) as [|p ps].
      * repeat constructor. simpl. now rewrite E.
      * inversion IH; subst. constructor; auto. simpl. now rewrite E.
Qed.

Lemma has_underscore_join pieces :
  Forall (fun p => has_underscore p = false) pieces ->
  has_underscore (join pieces) = false.
Proof.
  induction 1 as [|p ps Hp Hps IH]; simpl; auto.
  now rewrite has_underscore_append, Hp, IH.
Qed.

Lemma camel_no_underscore k : has_underscore (camel k) = false.
Proof.
  unfold camel. destruct (has_underscore k) eqn:E; simpl; auto.
  pose proof (split_underscore_pieces k) as Hs.
  destruct (split_underscore k) as [|first others]; auto.
  inversion Hs; subst.
  apply (has_underscore_join (lower first :: map title others)). constructor.
  - now apply has_underscore_lower.
  - apply Forall_map. eapply Forall_impl; [|eassumption].
    intros p Hp. now apply has_underscore_title_from.
Qed.

Lemma camel_fixed k : has_underscore k = false -> camel k = k.
Proof. unfold camel. now intros ->. Qed.

Lemma camel_changes k : has_underscore k = true -> camel k <> k.
Proof.
  intros H E. pose proof (camel_no_underscore k) as Hc.
  rewrite E in Hc. congruence.
Qed.

Lemma camel_idempotent k : camel (camel k) = camel k.
Proof. apply camel_fixed, camel_no_underscore. Qed.

End camel_facts.

Section rekey_facts.
Import Dict DictFacts.

(** A dict whose keys are all in camel form is left as it is. *)
Lemma rekey_fold_fixed (items x : dict) :
  Forall (fun kv => has_underscore (fst kv) = false) items ->
  fold_left rekey_step items x = x.
Proof.
  intros H. revert x.
  induction H as [|[k v] t Hk Ht IH]; intros x; simpl; auto.
  unfold rekey_step at 2. simpl in *.
  rewrite camel_fixed, String.eqb_refl by assumption. apply IH.
Qed.

(** The loop invariant: a key that still has an underscore is yet to be
    visited, and every value is one the snapshot held. *)
Lemma rekey_fold_invariant (P : value -> Prop) (items x : dict) :
  Forall (fun kv => P (snd kv)) items ->
  Forall (fun kv => P (snd kv)) x ->
  Forall (fun kv => has_underscore (fst kv) = true -> In (fst kv) (keys items)) x ->
  let x' := fold_left rekey_step items x in
  Forall (fun kv => P (snd kv)) x' /\
  Forall (fun kv => has_underscore (fst kv) = false) x'.
Proof.
  revert x. induction items as [|[k v] t IH]; intros x Hitems Hx Hkeys; simpl.
  - split; auto. eapply Forall_impl; [|exact Hkeys].
    intros kv H. simpl in H.
    destruct (has_underscore (fst kv)); auto. now destruct H.
  - inversion Hitems as [|? ? Hv Ht]; subst. simpl in Hv.
    apply IH; auto; unfold rekey_step; simpl;
      destruct (String.eqb (camel k) k) eqn:E.
    + assumption.
    + apply Forall_set; auto. now apply Forall_del.
    + apply String.eqb_eq in E.
      eapply Forall_impl; [|exact Hkeys]. intros kv H Hu.
      destruct (H Hu) as [Hk|]; auto. simpl in Hk. subst k.
      pose proof (camel_no_underscore (fst kv)). congruence.
    + apply Forall_set.
      * simpl. intros Hu. pose proof (camel_no_underscore k). congruence.
      * apply Forall_forall. intros kv Hin Hu.
        apply In_del in Hin as [Hin Hne].
        rewrite Forall_forall in Hkeys.
        destruct (Hkeys kv Hin Hu) as [Hk|]; auto. simpl in Hk. congruence.
Qed.

Lemma rekey_invariant (P : value -> Prop) (items : dict) :
  Forall (fun kv => P (snd kv)) items ->
  Forall (fun kv => P (snd kv)) (rekey items) /\
  Forall (fun kv => has_underscore (fst kv) = false) (rekey items).
Proof.
  intros H. apply rekey_fold_invariant; auto.
  apply Forall_forall. intros kv Hin _. now apply in_map.
Qed.
End rekey_facts.

Section rekey_values.
Import Dict.

(** Re-keying looks at keys only: converting the values before the loop or
    after it gives the same dict. *)
Lemma set_map_values (f : value -> value) k v (d : dict) :
  set k (f v) (map (fun kv => (fst kv, f (snd kv))) d)
  = map (fun kv => (fst kv, f (snd kv))) (set k v d).
Proof.
  induction d as [|[k' v'] t IH]; simpl; auto.
  destruct (String.eqb k' k); simpl; congruence.
Qed.

Lemma del_map_values (f : value -> value) k (d : dict) :
  del k (map (fun kv => (fst kv, f (snd kv))) d)
  = map (fun kv => (fst kv, f (snd kv))) (del k d).
Proof.
  unfold del. induction d as [|[k' v'] t IH]; simpl; auto.
  destruct (String.eqb k' k); simpl; congruence.
Qed.

Lemma rekey_fold_map_values (f : value -> value) (items x : dict) :
  fold_left rekey_step (map (fun kv => (fst kv, f (snd kv))) items)
            (map (fun kv => (fst kv, f (snd kv))) x)
  = map (fun kv => (fst kv, f (snd kv))) (fold_left rekey_step items x).
Proof.
  revert x. induction items as [|[k v] t IH]; intros x; simpl; auto.
  rewrite <- IH. f_equal. unfold rekey_step; simpl.
  destruct (String.eqb (camel k) k); auto.
  now rewrite del_map_values, set_map_values.
Qed.

Lemma rekey_map_values (f : value -> value) (items : dict) :
  rekey (map (fun kv => (fst kv, f (snd kv))) items)
  = map (fun kv => (fst kv, f (snd kv))) (rekey items).
Proof. apply rekey_fold_map_values. Qed.
End rekey_values.

Lemma normalized_fixed x : normalized x = true -> _convert_camel_case x = x.
Proof.
  induction x as [| | | |l IH|l IH|d IH|r IH] using value_rect'; simpl; auto.
  - intros H. f_equal. rewrite forallb_forall in H.
    rewrite <- (map_id l) at 2. apply map_ext_in.
    intros v Hv. rewrite Forall_forall in IH. auto.
  - intros H. f_equal. rewrite forallb_forall in H.
    rewrite <- (map_id l) at 2. apply map_ext_in.
    intros v Hv. rewrite Forall_forall in IH. auto.
  - intros H. f_equal. rewrite forallb_forall in H.
    assert (Hmap : map (fun kv => (fst kv, _convert_camel_case (snd kv))) d = d).
    { rewrite <- (map_id d) at 2. apply map_ext_in.
      intros [k v] Hkv. rewrite Forall_forall in IH. simpl.
      specialize (H _ Hkv). apply andb_true_iff in H as [_ H].
      f_equal. apply (IH _ Hkv H). }
    rewrite Hmap. apply rekey_fold_fixed.
    apply Forall_forall. intros kv Hkv. specialize (H _ Hkv).
    apply andb_true_iff in H as [H _]. now apply negb_true_iff in H.
Qed.

Lemma converted_normalized x : normalized (_convert_camel_case x) = true.
Proof.
  induction x as [| | | |l IH|l IH|d IH|r IH] using value_rect'; simpl; auto.
  - apply forallb_forall. intros v Hv. apply in_map_iff in Hv as [u [<- Hu]].
    rewrite Forall_forall in IH. auto.
  - apply forallb_forall. intros v Hv. apply in_map_iff in Hv as [u [<- Hu]].
    rewrite Forall_forall in IH. auto.
  - destruct (rekey_invariant (fun v => normalized v = true)
                (map (fun kv => (fst kv, _convert_camel_case (snd kv))) d))
      as [Hv Hk].
    { apply Forall_map. simpl. exact IH. }
    apply forallb_forall. intros kv Hin.
    rewrite Forall_forall in Hv, Hk.
    now rewrite Hk, Hv.
Qed.

(** ** Lookups in a converted mapping *)

Section convert_lookup_facts.
Import Dict DictFacts.

Lemma renamed_has_underscore k :
  String.eqb (camel k) k = false -> has_underscore k = true.
Proof.
  intros H. destruct (has_underscore k) eqn:E; auto.
  rewrite (camel_fixed k E), String.eqb_refl in H. discriminate.
Qed.

Lemma kept_has_no_underscore k :
  String.eqb (camel k) k = true -> has_underscore k = false.
Proof.
  intros H. apply String.eqb_eq in H.
  destruct (has_underscore k) eqn:E; auto.
  now destruct (camel_changes k E).
Qed.

(** The renaming loop, seen from one key of its result. *)
Lemma rekey_fold_lookup c (items : dict) :
  forall x : dict,
    get c (fold_left rekey_step items x)
    = match last_renamed c items with
      | Some v => Some v
      | None => if has_underscore c && mem c items then None else get c x
      end.
Proof.
  induction items as [|[k v] t IH]; intros x.
  - cbn [fold_left last_renamed]. now rewrite andb_false_r.
  - cbn [fold_left last_renamed]. rewrite IH.
    destruct (last_renamed c t) as [w|]; [reflexivity|].
    unfold rekey_step, mem. cbn [fst snd get].
    destruct (String.eqb (camel k) k) eqn:Ek.
    + rewrite (kept_has_no_underscore k Ek). cbn [andb].
      destruct (String.eqb k c) eqn:Ekc; [|reflexivity].
      apply String.eqb_eq in Ekc. subst c.
      now rewrite (kept_has_no_underscore k Ek).
    + rewrite (renamed_has_underscore k Ek). cbn [andb].
      destruct (String.eqb (camel k) c) eqn:Ec.
      * apply String.eqb_eq in Ec. subst c.
        rewrite camel_no_underscore. cbn [andb]. apply get_set_eq.
      * apply String.eqb_neq in Ec.
        rewrite get_set_ne by congruence.
        destruct (String.eqb k c) eqn:Ekc.
        -- apply String.eqb_eq in Ekc. subst c.
           rewrite get_del_eq, (renamed_has_underscore k Ek).
           now destruct (get k t).
        -- apply String.eqb_neq in Ekc.
           now rewrite get_del_ne by congruence.
Qed.

Lemma get_map_values (f : value -> value) c (d : dict) :
  get c (map (fun kv => (fst kv, f (snd kv))) d) = option_map f (get c d).
Proof.
  induction d as [|[k v] t IH]; [reflexivity|].
  cbn [map get fst snd]. now destruct (String.eqb k c).
Qed.

Lemma last_renamed_map_values (f : value -> value) c (d : dict) :
  last_renamed c (map (fun kv => (fst kv, f (snd kv))) d)
  = option_map f (last_renamed c d).
Proof.
  induction d as [|[k v] t IH]; [reflexivity|].
  cbn [map last_renamed fst snd]. rewrite IH.
  destruct (last_renamed c t); [reflexivity|].
  now destruct (has_underscore k && String.eqb (camel k) c).
Qed.

Lemma last_renamed_Some_In c (d : dict) v :
  last_renamed c d = Some v ->
  exists k, In (k, v) d /\ has_underscore k = true /\ camel k = c.
Proof.
  induction d as [|[k w] t IH]; [discriminate|].
  cbn [last_renamed]. destruct (last_renamed c t) as [u|].
  - intros [= <-]. destruct (IH eq_refl) as [k' [Hin H]].
    exists k'. split; [now right|exact H].
  - destruct (has_underscore k) eqn:Hu; cbn [andb]; [|discriminate].
    destruct (String.eqb (camel k) c) eqn:Ec; [|discriminate].
    intros [= <-]. apply String.eqb_eq in Ec.
    exists k. split; [now left|]. now split.
Qed.

Lemma In_last_renamed k v (d : dict) :
  In (k, v) d -> has_underscore k = true ->
  exists w, last_renamed (camel k) d = Some w.
Proof.
  induction d as [|[k' v'] t IH]; [intros []|].
  intros [Heq|Hin] Hu; cbn [last_renamed].
  - injection Heq as -> ->.
    destruct (last_renamed (camel k) t); [eauto|].
    rewrite Hu, String.eqb_refl. cbn [andb]. eauto.
  - destruct (IH Hin Hu) as [w ->]. eauto.
Qed.

(** A converted mapping, seen from one key. *)
Lemma converted_items_lookup (d : dict) c :
  get c (converted_items d)
  = match last_renamed c d with
    | Some v => Some (_convert_camel_case v)
    | None =>
        if has_underscore c then None
        else option_map _convert_camel_case (get c d)
    end.
Proof.
  unfold converted_items, rekey.
  rewrite rekey_fold_lookup, last_renamed_map_values.
  destruct (last_renamed c d); [reflexivity|]. cbn [option_map].
  unfold mem. rewrite get_map_values.
  destruct (has_underscore c); cbn [andb]; [|reflexivity].
  now destruct (get c d).
Qed.

(** The keys of a converted mapping are the camel forms of the keys. *)
Lemma converted_items_keys (d : dict) :
  (forall k, In k (keys d) -> In (camel k) (keys (converted_items d))) /\
  (forall c, In c (keys (converted_items d)) ->
             exists k, In k (keys d) /\ c = camel k).
Proof.
  split.
  - intros k Hk. destruct (In_keys_get _ _ Hk) as [v Hv].
    assert (Hget : exists w, get (camel k) (converted_items d) = Some w).
    { rewrite converted_items_lookup.
      destruct (has_underscore k) eqn:Hu.
      - destruct (In_last_renamed k v d (get_Some_In _ _ _ Hv) Hu) as [w ->]. eauto.
      - rewrite (camel_fixed k Hu), Hu, Hv.
        destruct (last_renamed k d); cbn [option_map]; eauto. }
    destruct Hget as [w Hw]. apply get_Some_In in Hw.
    change (camel k) with (fst (camel k, w)). now apply in_map.
  - intros c Hc. destruct (In_keys_get _ _ Hc) as [w Hw].
    rewrite converted_items_lookup in Hw.
    destruct (last_renamed c d) as [v|] eqn:El.
    + destruct (last_renamed_Some_In c d v El) as [k [Hin [_ Hk]]].
      exists k. split; [|now symmetry].
      change k with (fst (k, v)). now apply in_map.
    + destruct (has_underscore c) eqn:Hu; [discriminate|].
      destruct (get c d) as [v|] eqn:Ev; [|discriminate].
      exists c. split; [|now rewrite camel_fixed].
      apply get_Some_In in Ev. change c with (fst (c, v)). now apply in_map.
Qed.
End convert_lookup_facts.

(** ** [camel] on names made of pieces *)

Section split_facts.

Lemma split_underscore_piece p :
  has_underscore p = false -> split_underscore p = [p].
Proof.
  induction p as [|c p IH]; [reflexivity|].
  cbn [has_underscore split_underscore]. intros H.
  apply orb_false_iff in H as [Hc Hp]. now rewrite Hc, (IH Hp).
Qed.

Lemma split_underscore_append p rest :
  has_underscore p = false ->
  split_underscore (p ++ "_" ++ rest) = p :: split_underscore rest.
Proof.
  induction p as [|c p IH]; [reflexivity|].
  cbn [has_underscore]. intros H. apply orb_false_iff in H as [Hc Hp].
  change (String c p ++ "_" ++ rest)%string with (String c (p ++ "_" ++ rest)).
  cbn [split_underscore]. now rewrite Hc, (IH Hp).
Qed.

Lemma split_join_underscore p ps :
  Forall (fun q => has_underscore q = false) (p :: ps) ->
  split_underscore (join_underscore (p :: ps)) = p :: ps.
Proof.
  revert p. induction ps as [|q ps IH]; intros p H; inversion H; subst.
  - now apply split_underscore_piece.
  - change (join_underscore (p :: q :: ps))
      with (p ++ "_" ++ join_underscore (q :: ps))%string.
    rewrite split_underscore_append by assumption. now rewrite IH.
Qed.

Lemma camel_join_underscore first second others :
  Forall (fun q => has_underscore q = false) (first :: second :: others) ->
  camel (join_underscore (first :: second :: others))
  = join (lower first :: map title (second :: others)).
Proof.
  intros H. unfold camel. rewrite (split_join_underscore _ _ H).
  change (join_underscore (first :: second :: others))
    with (first ++ "_" ++ join_underscore (second :: others))%string.
  rewrite has_underscore_append. cbn [append has_underscore].
  unfold underscore. rewrite Ascii.eqb_refl. cbn [orb].
  now rewrite orb_true_r.
Qed.
End split_facts.

Section rekey_lookup.
Import Dict DictFacts.

Lemma NoDup_camel_keys (items : dict) :
  NoDup (map camel (keys items)) -> NoDup (keys items).
Proof.
  induction items as [|[k v] t IH]; simpl; intros H; constructor;
    inversion H; subst; auto.
  intros Hin. apply H2. now apply in_map.
Qed.

Lemma In_get_NoDup (items : dict) k v :
  NoDup (keys items) -> In (k, v) items -> get k items = Some v.
Proof.
  induction items as [|[k' v'] t IH]; simpl; intros Hnd Hin; [tauto|].
  inversion Hnd; subst. destruct Hin as [[= -> ->]|Hin].
  - now rewrite String.eqb_refl.
  - destruct (String.eqb k' k) eqn:E; auto.
    apply String.eqb_eq in E. subst k'. exfalso. apply H1.
    change k with (fst (k, v)). now apply in_map.
Qed.

(** A key that no later step deletes or writes keeps its value. *)
Lemma rekey_fold_untouched (rest x : dict) c :
  (forall k, In k (keys rest) -> camel k <> k -> c <> k /\ c <> camel k) ->
  get c (fold_left rekey_step rest x) = get c x.
Proof.
  revert x. induction rest as [|[k v] t IH]; intros x H; simpl; auto.
  rewrite IH by (intros; apply H; simpl; auto).
  unfold rekey_step; simpl. destruct (String.eqb (camel k) k) eqn:E; auto.
  destruct (H k) as [Hk Hc]; simpl; auto.
  { intros Heq. rewrite Heq, String.eqb_refl in E. discriminate. }
  rewrite get_set_ne, get_del_ne; auto.
Qed.

Lemma rekey_fold_get (rest x : dict) :
  NoDup (map camel (keys rest)) ->
  (forall k v, In (k, v) rest -> get k x = Some v) ->
  forall k v, In (k, v) rest ->
    get (camel k) (fold_left rekey_step rest x) = Some v.
Proof.
  revert x. induction rest as [|[k0 v0] t IH]; intros x Hnd Hx k v Hin;
    simpl in *; [tauto|].
  inversion Hnd as [|? ? Hnotin Hnd']; subst.
  assert (Hother : forall k', In k' (keys t) -> camel k' <> camel k0).
  { intros k' Hk' Heq. apply Hnotin. rewrite <- Heq. now apply in_map. }
  destruct Hin as [[= -> ->]|Hin].
  - rewrite rekey_fold_untouched.
    + unfold rekey_step; simpl. destruct (String.eqb (camel k) k) eqn:E.
      * apply String.eqb_eq in E. rewrite E. apply Hx. now left.
      * apply get_set_eq.
    + intros k' Hk' Hch. split; [|intros Heq; now apply (Hother k')].
      intros Heq. apply Hch. subst k'. apply camel_idempotent.
  - apply IH; auto.
    intros k' v' Hin'. unfold rekey_step; simpl.
    destruct (String.eqb (camel k0) k0) eqn:E; [apply Hx; now right|].
    assert (Hk' : In k' (keys t)).
    { change k' with (fst (k', v')). now apply in_map. }
    rewrite get_set_ne, get_del_ne; [apply Hx; now right| |].
    + intros ->. apply (Hother k0 Hk'). reflexivity.
    + intros ->. apply (Hother _ Hk'). apply camel_idempotent.
Qed.

(** Without two keys of one camel form, every key is found under its camel
    form, with its converted value. *)
Lemma converted_items_get (d : dict) k v :
  NoDup (map camel (keys d)) ->
  get k d = Some v ->
  get (camel k) (converted_items d) = Some (_convert_camel_case v).
Proof.
  intros Hnd Hget. unfold converted_items, rekey.
  set (items := map (fun kv => (fst kv, _convert_camel_case (snd kv))) d).
  assert (Hkeys : keys items = keys d).
  { unfold items, keys. rewrite map_map. reflexivity. }
  assert (Hin : In (k, _convert_camel_case v) items).
  { apply get_Some_In in Hget. unfold items.
    apply in_map_iff. exists (k, v). auto. }
  apply rekey_fold_get; auto.
  - now rewrite Hkeys.
  - intros k' v' Hin'. apply In_get_NoDup; auto.
    rewrite Hkeys. now apply NoDup_camel_keys.
Qed.
End rekey_lookup.

(** C9.  The naming normalizer is idempotent: a converted tree has no key
    with an underscore left at any depth, and a tree without such keys is
    returned as it is, so converting twice is converting once.  The
    conversion is recursive: a list or tuple is converted item by item, in
    place and order; the keys of a converted mapping are the camel forms of
    the keys of the mapping, and, when no two keys share a camel form, each
    key is found under its camel form with its converted value.  The camel
    form of a name made of pieces joined by underscores is the first piece
    lowered followed by the other pieces title-cased; a key without
    underscores and a scalar are unchanged. *)
Theorem convert_camel_case_idempotent :
  (forall x, _convert_camel_case (_convert_camel_case x) = _convert_camel_case x) /\
  (forall x, normalized (_convert_camel_case x) = true) /\
  (forall x, normalized x = true -> _convert_camel_case x = x) /\
  (forall l, _convert_camel_case (VList l) = VList (map _convert_camel_case l)) /\
  (forall l, _convert_camel_case (VTuple l) = VTuple (map _convert_camel_case l)) /\
  (forall d, exists out,
      _convert_camel_case (VDict d) = VDict out /\
      (forall k, In k (Dict.keys d) -> In (camel k) (Dict.keys out)) /\
      (forall c, In c (Dict.keys out) -> exists k, In k (Dict.keys d) /\ c = camel k) /\
      (NoDup (map camel (Dict.keys d)) ->
       forall k v, Dict.get k d = Some v ->
                   Dict.get (camel k) out = Some (_convert_camel_case v))) /\
  (forall first second others,
      Forall (fun p => has_underscore p = false) (first :: second :: others) ->
      camel (join_underscore (first :: second :: others))
      = join (lower first :: map title (second :: others))) /\
  (forall k, has_underscore k = false -> camel k = k) /\
  (forall k, has_underscore (camel k) = false) /\
  (forall x, match x with
             | VDict _ | VList _ | VTuple _ => True
             | _ => _convert_camel_case x = x
             end) /\
  camel "display_name" = "displayName".
Proof.
  split; [intros x; apply normalized_fixed, converted_normalized|].
  split; [apply converted_normalized|].
  split; [apply normalized_fixed|].
  split; [reflexivity|].
  split; [reflexivity|].
  split.
  { intros d. exists (converted_items d).
    destruct (converted_items_keys d) as [Hto Hfrom].
    split; [reflexivity|]. split; [exact Hto|]. split; [exact Hfrom|].
    intros Hnd k v Hget. now apply converted_items_get. }
  split; [apply camel_join_underscore|].
  split; [apply camel_fixed|].
  split; [apply camel_no_underscore|].
  split; [now intros []|reflexivity].
Qed.

Lemma convert_camel_case_idempotent_witness :
  _convert_camel_case
    (_convert_camel_case
       (VDict [("read_only", VBool false);
               ("choices", VList [VInt 1; VDict [("display_name", VStr "One")]])]))
  = _convert_camel_case
      (VDict [("read_only", VBool false);
              ("choices", VList [VInt 1; VDict [("display_name", VStr "One")]])]) /\
  (exists out,
      _convert_camel_case
        (VDict [("read_only", VBool false);
                ("choices", VList [VInt 1; VDict [("display_name", VStr "One")]])])
      = VDict out /\
      Dict.get "readOnly" out = Some (VBool false)) /\
  _convert_camel_case (VDict [("id", VStr "a_b")]) = VDict [("id", VStr "a_b")] /\
  camel "first_name" = "firstName" /\
  camel "id" = "id".
Proof.
  destruct convert_camel_case_idempotent
    as (Hidem & _ & Hfixed & _ & _ & Hdict & Hform & Hplain & _).
  split; [apply Hidem|].
  split.
  { destruct (Hdict [("read_only", VBool false);
                     ("choices", VList [VInt 1; VDict [("display_name", VStr "One")]])])
      as [out [Hout [_ [_ Hkey]]]].
    exists out. split; [exact Hout|].
    apply (Hkey ltac:(repeat constructor; simpl; intuition discriminate)
             "read_only" (VBool false) eq_refl). }
  split; [apply Hfixed; reflexivity|].
  split; [apply (Hform "first" "name" []); repeat constructor|].
  apply Hplain. reflexivity.
Defined.

(** ** The layout transformer *)

Section transform_facts.
Import Dict DictFacts.

Lemma get_call_values k (layout : dict) :
  get k (call_values layout) = option_map call (get k layout).
Proof.
  unfold call_values. induction layout as [|[k' v'] t IH]; simpl; auto.
  destruct (String.eqb k' k); auto.
Qed.

Lemma is_str_exclusive v a b :
  is_str v a = true -> a <> b -> is_str v b = false.
Proof.
  destruct v; simpl; try discriminate.
  intros Ha Hne. apply String.eqb_eq in Ha. subst.
  now apply String.eqb_neq.
Qed.

Lemma apply_form_defaults_found (node : dict) (form_defaults : defaults) id overrides :
  get "id" node = Some (VStr id) ->
  get id form_defaults = Some overrides ->
  apply_form_defaults node form_defaults = Ok (update node overrides).
Proof. unfold apply_form_defaults. now intros -> ->. Qed.

(** What the merge of lines 198-203 leaves under each key. *)
Lemma merged_get (node overrides : dict) k :
  NoDup (keys overrides) ->
  get k (call_values (update node overrides)) =
    match get k overrides with
    | Some v => Some (call v)
    | None => option_map call (get k node)
    end.
Proof.
  intros Hnd. rewrite get_call_values.
  destruct (get k overrides) as [v|] eqn:E.
  - now rewrite (get_update_present k v).
  - now rewrite get_update_absent.
Qed.

Lemma get_field_string m s :
  get_field m (VStr s)
  = match get s (model_fields m) with
    | Some field => Ok field
    | None => Raise FieldDoesNotExist
    end.
Proof. reflexivity. Qed.

(** A leaf whose id is a string comes out of lines 216-227 with at most its
    [type] rewritten. *)
Lemma string_or_textarea_total self (layout : dict) id :
  get "id" layout = Some (VStr id) ->
  exists out,
    string_or_textarea self layout = Ok (VDict out) /\
    (out = layout \/ out = set "type" (VStr "textarea") layout).
Proof.
  intros Hid. unfold string_or_textarea, getitem.
  destruct (queryset_model self) as [m|]; [|eauto].
  rewrite Hid; cbn [bind]. rewrite get_field_string.
  destruct (get id (model_fields m)) as [[]|]; simpl; eauto.
Qed.
End transform_facts.

(** C1 (as the code has it).  For a leaf node whose id is a key of the
    defaults map, every key of the defaults record carries the record's value
    in the transformed node, whether or not the node had the key; a key of the
    node keeps its value only when the record does not have it.  (Callable
    values are replaced by what they return; [type] is left to the textarea
    rule; a record that sets [id] sets it to a string, the lookup of the
    model's field raising [TypeError] on a list or a mapping.) *)
Theorem transform_defaults_override :
  forall self fuel (node : dict) (form_defaults : defaults) id (overrides : dict) wrap,
    Dict.get "id" node = Some (VStr id) ->
    Dict.get id form_defaults = Some overrides ->
    NoDup (Dict.keys overrides) ->
    (let t := layout_type (call_values (Dict.update node overrides)) in
     is_str t "fieldset" || is_str t "group" || is_str t "columns" = false) ->
    (forall v, Dict.get "id" overrides = Some v -> exists s, call v = VStr s) ->
    exists out,
      _transform_layout (S fuel) self (VDict node) form_defaults wrap = Ok (VDict out) /\
      (forall k v, k <> "type" -> Dict.get k overrides = Some v ->
                   Dict.get k out = Some (call v)) /\
      (forall k, k <> "type" -> Dict.get k overrides = None ->
                 Dict.get k out = option_map call (Dict.get k node)).
Proof.
  intros self fuel node form_defaults id overrides wrap Hid Hdef Hnd Hleaf Hstr.
  simpl in Hleaf.
  apply orb_false_iff in Hleaf as [Hleaf Hcol].
  simpl. rewrite (apply_form_defaults_found _ _ _ _ Hid Hdef). simpl.
  set (merged := call_values (Dict.update node overrides)) in *.
  rewrite Hleaf, Hcol.
  assert (Hmid : exists id', Dict.get "id" merged = Some (VStr id')).
  { unfold merged. rewrite merged_get by assumption.
    destruct (Dict.get "id" overrides) as [v|] eqn:Ev.
    - destruct (Hstr v eq_refl) as [s ->]. eauto.
    - rewrite Hid. simpl. eauto. }
  destruct Hmid as [id' Hid'].
  assert (Hout : exists out,
             (if is_str (layout_type merged) "string"
              then string_or_textarea self merged else Ok (VDict merged))
             = Ok (VDict out) /\
             (out = merged \/ out = Dict.set "type" (VStr "textarea") merged)).
  { destruct (is_str (layout_type merged) "string"); [|eauto].
    now apply string_or_textarea_total with (id := id'). }
  destruct Hout as [out [-> Hshape]]. exists out. split; [reflexivity|].
  assert (Hget : forall k, k <> "type" -> Dict.get k out = Dict.get k merged).
  { intros k Hk. destruct Hshape as [->| ->]; auto.
    now apply DictFacts.get_set_ne. }
  split.
  - intros k v Hk Hov. rewrite Hget by assumption.
    unfold merged. rewrite merged_get by assumption. now rewrite Hov.
  - intros k Hk Hov. rewrite Hget by assumption.
    unfold merged. rewrite merged_get by assumption. now rewrite Hov.
Qed.

Lemma transform_defaults_override_witness :
  exists out,
    _transform_layout 1 bare_viewset
      (VDict [("id", VStr "x"); ("label", VStr "A"); ("hint", VStr "H")])
      [("x", [("label", VStr "B"); ("help", VStr "C")])] true = Ok (VDict out) /\
    Dict.get "label" out = Some (VStr "B") /\
    Dict.get "help" out = Some (VStr "C") /\
    Dict.get "hint" out = Some (VStr "H").
Proof.
  destruct (transform_defaults_override bare_viewset 0
              [("id", VStr "x"); ("label", VStr "A"); ("hint", VStr "H")]
              [("x", [("label", VStr "B"); ("help", VStr "C")])]
              "x" [("label", VStr "B"); ("help", VStr "C")] true)
    as [out [Hrun [Hover Hkeep]]].
  - reflexivity.
  - reflexivity.
  - repeat constructor; simpl; intuition discriminate.
  - reflexivity.
  - intros v Hv. discriminate Hv.
  - exists out. split; [exact Hrun|].
    split; [apply (Hover "label" (VStr "B")); [discriminate|reflexivity]|].
    split; [apply (Hover "help" (VStr "C")); [discriminate|reflexivity]|].
    apply (Hkeep "hint"); [discriminate|reflexivity].
Defined.

(** C1 as stated fails: the explicit label "A" is replaced by the default "B". *)
Lemma transform_explicit_label_overridden :
  _transform_layout 1 bare_viewset
    (VDict [("id", VStr "x"); ("label", VStr "A")])
    [("x", [("label", VStr "B"); ("help", VStr "C")])] true
  = Ok (VDict [("id", VStr "x"); ("label", VStr "B"); ("help", VStr "C")]) /\
  Dict.get "label" [("id", VStr "x"); ("label", VStr "B"); ("help", VStr "C")]
  <> Some (VStr "A").
Proof. split; [reflexivity|discriminate]. Qed.

(** C4 (as the code has it).  The defaults record is merged into every
    mapping node whose id is a key of the defaults map, a container as well:
    when the children of such a container (its [controls], or its [columns]
    for a columns node) transform to [controls'], the transformed container
    holds [controls'] under [controls] and, under every other key of the
    defaults record, the record's value. *)
Theorem transform_defaults_reach_containers :
  forall self fuel (node : dict) (form_defaults : defaults) id (overrides : dict)
         wrap children controls',
    Dict.get "id" node = Some (VStr id) ->
    Dict.get id form_defaults = Some overrides ->
    NoDup (Dict.keys overrides) ->
    let merged := call_values (Dict.update node overrides) in
    let t := layout_type merged in
    is_str t "fieldset" || is_str t "group" || is_str t "columns" = true ->
    Dict.get (if is_str t "columns" then "columns" else "controls") merged
      = Some children ->
    _transform_layout fuel self children form_defaults false = Ok controls' ->
    exists out,
      _transform_layout (S fuel) self (VDict node) form_defaults wrap = Ok (VDict out) /\
      Dict.get "controls" out = Some controls' /\
      (forall k v, k <> "controls" -> k <> "columns" ->
                   Dict.get k overrides = Some v ->
                   Dict.get k out = Some (call v)).
Proof.
  intros self fuel node form_defaults id overrides wrap children controls'
         Hid Hdef Hnd merged t Hkind Hchildren Hrec.
  simpl. rewrite (apply_form_defaults_found _ _ _ _ Hid Hdef). simpl.
  fold merged. fold t.
  assert (Hmerged : forall k v, Dict.get k overrides = Some v ->
                                Dict.get k merged = Some (call v)).
  { intros k v Hov. unfold merged. rewrite merged_get by assumption.
    now rewrite Hov. }
  destruct (is_str t "fieldset" || is_str t "group") eqn:Hfg.
  - assert (Hcol : is_str t "columns" = false).
    { apply orb_true_iff in Hfg as [H|H];
        apply (is_str_exclusive _ _ _ H); discriminate. }
    rewrite Hcol in Hchildren. unfold getitem. rewrite Hchildren. simpl.
    rewrite Hrec. simpl. eexists. split; [reflexivity|]. split.
    + apply DictFacts.get_set_eq.
    + intros k v Hk _ Hov. rewrite DictFacts.get_set_ne by assumption. auto.
  - simpl in Hkind. rewrite Hkind in *. unfold getitem. rewrite Hchildren. simpl.
    rewrite Hrec. simpl. eexists. split; [reflexivity|]. split.
    + rewrite DictFacts.get_del_ne by discriminate. apply DictFacts.get_set_eq.
    + intros k v Hk Hk' Hov.
      rewrite DictFacts.get_del_ne, DictFacts.get_set_ne by assumption. auto.
Qed.

Lemma transform_defaults_reach_containers_witness :
  exists out,
    _transform_layout 2 bare_viewset
      (VDict [("type", VStr "fieldset"); ("id", VStr "x"); ("controls", VList [])])
      [("x", [("label", VStr "L")])] true = Ok (VDict out) /\
    Dict.get "controls" out = Some (VList []) /\
    Dict.get "label" out = Some (VStr "L").
Proof.
  destruct (transform_defaults_reach_containers bare_viewset 1
              [("type", VStr "fieldset"); ("id", VStr "x"); ("controls", VList [])]
              [("x", [("label", VStr "L")])] "x" [("label", VStr "L")] true
              (VList []) (VList []))
    as [out [Hrun [Hcontrols Hover]]].
  - reflexivity.
  - reflexivity.
  - repeat constructor; simpl; intuition discriminate.
  - reflexivity.
  - reflexivity.
  - reflexivity.
  - exists out. split; [exact Hrun|]. split; [exact Hcontrols|].
    apply (Hover "label" (VStr "L")); [discriminate|discriminate|reflexivity].
Defined.

(** C4 as stated fails: a fieldset whose id is a key of the defaults map
    receives the record's [label], a key it did not carry. *)
Lemma transform_fieldset_takes_defaults :
  _transform_layout 2 bare_viewset
    (VDict [("type", VStr "fieldset"); ("id", VStr "x"); ("controls", VList [])])
    [("x", [("label", VStr "L")])] true
  = Ok (VDict [("type", VStr "fieldset"); ("id", VStr "x");
               ("controls", VList []); ("label", VStr "L")]) /\
  Dict.get "label"
    [("type", VStr "fieldset"); ("id", VStr "x"); ("controls", VList [])] = None.
Proof. split; reflexivity. Qed.

(** C8.  A leaf of the default kind "string" (after defaults and callables)
    whose id is a name: when the model has a long-text column of that name,
    the transformed node has type "textarea" and is otherwise unchanged; when
    the model has no column of that name, the node comes back unchanged, still
    of kind "string", and the transformation succeeds; so it does for a
    column that is not long text. *)
Theorem transform_textarea_upgrade :
  forall self fuel (node merged : dict) (form_defaults : defaults) wrap name m,
    apply_form_defaults node form_defaults = Ok merged ->
    is_str (layout_type (call_values merged)) "string" = true ->
    Dict.get "id" (call_values merged) = Some (VStr name) ->
    queryset_model self = Some m ->
    (Dict.get name (model_fields m) = Some TextField ->
     exists out,
       _transform_layout (S fuel) self (VDict node) form_defaults wrap = Ok (VDict out) /\
       Dict.get "type" out = Some (VStr "textarea") /\
       (forall k, k <> "type" -> Dict.get k out = Dict.get k (call_values merged))) /\
    (Dict.get name (model_fields m) = None ->
     get_field m (VStr name) = Raise FieldDoesNotExist /\
     _transform_layout (S fuel) self (VDict node) form_defaults wrap
       = Ok (VDict (call_values merged)) /\
     layout_type (call_values merged) = VStr "string") /\
    (Dict.get name (model_fields m) = Some OtherField ->
     _transform_layout (S fuel) self (VDict node) form_defaults wrap
       = Ok (VDict (call_values merged))).
Proof.
  intros self fuel node merged form_defaults wrap name m Hmerge Hkind Hid Hmodel.
  assert (Hrun : _transform_layout (S fuel) self (VDict node) form_defaults wrap
                 = string_or_textarea self (call_values merged)).
  { simpl. rewrite Hmerge. simpl.
    rewrite (is_str_exclusive _ _ "fieldset" Hkind) by discriminate.
    rewrite (is_str_exclusive _ _ "group" Hkind) by discriminate.
    rewrite (is_str_exclusive _ _ "columns" Hkind) by discriminate.
    now rewrite Hkind. }
  rewrite Hrun. unfold string_or_textarea, getitem. rewrite Hmodel, Hid.
  cbn [bind]. rewrite get_field_string.
  split; [|split]; intros Hfield; rewrite Hfield; simpl.
  - eexists. split; [reflexivity|]. split.
    + apply DictFacts.get_set_eq.
    + intros k Hk. now apply DictFacts.get_set_ne.
  - split; [reflexivity|]. split; [reflexivity|].
    destruct (layout_type (call_values merged)); simpl in Hkind; try discriminate.
    apply String.eqb_eq in Hkind. now subst.
  - reflexivity.
Qed.

Lemma transform_textarea_upgrade_witness :
  (exists out,
     _transform_layout 1 bare_viewset (VDict [("id", VStr "notes")]) [] true
       = Ok (VDict out) /\
     Dict.get "type" out = Some (VStr "textarea")) /\
  _transform_layout 1 bare_viewset (VDict [("id", VStr "computed")]) [] true
    = Ok (VDict [("id", VStr "computed")]).
Proof.
  split.
  - destruct (transform_textarea_upgrade bare_viewset 0
                [("id", VStr "notes")] [("id", VStr "notes")] [] true
                "notes" notes_model
                eq_refl eq_refl eq_refl eq_refl) as [Hup _].
    destruct (Hup eq_refl) as [out [Hrun [Htype _]]]. eauto.
  - destruct (transform_textarea_upgrade bare_viewset 0
                [("id", VStr "computed")] [("id", VStr "computed")] [] true
                "computed" notes_model
                eq_refl eq_refl eq_refl eq_refl) as [_ [Hkeep _]].
    apply (Hkeep eq_refl).
Defined.

(** ** The layout decorator *)

Section decorate_facts.
Import Dict DictFacts.

Lemma mapM_Forall2 {A B : Type} (f : A -> result B) (R : A -> B -> Prop) l :
  Forall (fun x => exists y, f x = Ok y /\ R x y) l ->
  exists ys, mapM f l = Ok ys /\ Forall2 R l ys.
Proof.
  induction 1 as [|x t [y [Hy HR]] Ht [ys [Hys HRs]]]; simpl.
  - eauto.
  - rewrite Hy, Hys. simpl. eauto.
Qed.

Lemma choice_label_cases (x : dict) :
  match get "label" x with
  | Some l =>
      if truthy l then choice_label x = l
      else choice_label x = get_default "display_name" VNone x
  | None => choice_label x = get_default "display_name" VNone x
  end.
Proof.
  unfold choice_label, py_or, get_default.
  destruct (get "label" x) as [l|]; simpl; auto.
  destruct (truthy l); auto.
Qed.

Lemma decorate_choices_list (md : dict) choices ys :
  get "choices" md = Some (VList choices) ->
  choices <> [] ->
  mapM decorate_choice choices = Ok ys ->
  decorate_choices md = Ok (set "choices" (VList ys) md).
Proof.
  intros Hget Hne Hmap. unfold decorate_choices, get_default, getitem.
  rewrite Hget. destruct choices as [|c cs]; [congruence|].
  cbn [truthy bind iterate]. now rewrite Hmap.
Qed.

Lemma is_container_no_type (layout : dict) :
  get "type" layout = None -> is_container layout = false.
Proof. unfold is_container, get_default. now intros ->. Qed.
End decorate_facts.

(** C2 (as the code has it).  When the merged record of a decorated leaf holds
    a non-empty list of choices, each a mapping with a [value], the decorated
    leaf holds one [{label, value}] per entry, in order; the label is the
    entry's [label] when that is present and true; when the [label] is absent
    or false (None, empty, zero) it is the entry's [display_name], and [None]
    when the entry has no [display_name]: decoration does not fail. *)
Theorem decorate_choices_reshaped :
  forall fuel (fields_info : fields) (layout md : dict) type choices,
    is_container layout = false ->
    merged_metadata layout fields_info = Ok md ->
    Dict.get "type" md = Some type ->
    Dict.get "choices" md = Some (VList choices) ->
    choices <> [] ->
    Forall (fun x => exists d v, x = VDict d /\ Dict.get "value" d = Some v) choices ->
    exists out choices',
      _decorate_layout (S fuel) (VDict layout) fields_info = Ok (VDict out) /\
      Dict.get "choices" out = Some (VList choices') /\
      Forall2 (fun x y => exists d v label,
                   x = VDict d /\ Dict.get "value" d = Some v /\
                   y = VDict [("label", label); ("value", v)] /\
                   label = match Dict.get "label" d, Dict.get "display_name" d with
                           | Some l, Some n => if truthy l then l else n
                           | Some l, None => if truthy l then l else VNone
                           | None, Some n => n
                           | None, None => VNone
                           end)
              choices choices'.
Proof.
  intros fuel fields_info layout md type choices Hleaf Hmd Htype Hchoices Hne Hall.
  simpl. rewrite Hleaf. unfold decorate_leaf. rewrite Hmd. simpl.
  unfold getitem at 1. rewrite Htype. simpl.
  set (md' := if is_str type "choice"
              then Dict.set "type" (VStr "select") md else md).
  assert (Hmd' : Dict.get "choices" md' = Some (VList choices)).
  { unfold md'. destruct (is_str type "choice"); auto.
    rewrite DictFacts.get_set_ne by discriminate. assumption. }
  destruct (mapM_Forall2 decorate_choice
              (fun x y => exists d v label,
                   x = VDict d /\ Dict.get "value" d = Some v /\
                   y = VDict [("label", label); ("value", v)] /\
                   label = match Dict.get "label" d, Dict.get "display_name" d with
                           | Some l, Some n => if truthy l then l else n
                           | Some l, None => if truthy l then l else VNone
                           | None, Some n => n
                           | None, None => VNone
                           end)
              choices) as [ys [Hys HR]].
  { eapply Forall_impl; [|exact Hall].
    intros x [d [v [-> Hv]]]. simpl. unfold getitem. rewrite Hv. simpl.
    eexists. split; [reflexivity|]. exists d, v, (choice_label d).
    repeat split; auto.
    pose proof (choice_label_cases d) as H. unfold get_default in H.
    destruct (Dict.get "label" d) as [l|], (Dict.get "display_name" d) as [n|];
      try destruct (truthy l); assumption. }
  rewrite (decorate_choices_list md' choices ys Hmd' Hne Hys). simpl.
  eexists. exists ys. split; [reflexivity|]. split; auto.
  unfold _decorate_layout_item. apply DictFacts.get_set_eq.
Qed.

Lemma decorate_choices_reshaped_witness :
  exists out,
    _decorate_layout 1
      (VDict [("id", VStr "kind"); ("type", VStr "choice");
              ("choices",
               VList [VDict [("value", VInt 1); ("display_name", VStr "One")];
                      VDict [("value", VInt 2); ("label", VStr EmptyString);
                             ("display_name", VStr "Two")];
                      VDict [("value", VInt 3); ("label", VStr "Three");
                             ("display_name", VStr "Drei")]])])
      [] = Ok (VDict out) /\
    Dict.get "choices" out
    = Some (VList [VDict [("label", VStr "One"); ("value", VInt 1)];
                   VDict [("label", VStr "Two"); ("value", VInt 2)];
                   VDict [("label", VStr "Three"); ("value", VInt 3)]]).
Proof.
  destruct (decorate_choices_reshaped 0 []
              [("id", VStr "kind"); ("type", VStr "choice");
               ("choices",
                VList [VDict [("value", VInt 1); ("display_name", VStr "One")];
                       VDict [("value", VInt 2); ("label", VStr EmptyString);
                              ("display_name", VStr "Two")];
                       VDict [("value", VInt 3); ("label", VStr "Three");
                              ("display_name", VStr "Drei")]])]
              [("id", VStr "kind"); ("type", VStr "choice");
               ("choices",
                VList [VDict [("value", VInt 1); ("display_name", VStr "One")];
                       VDict [("value", VInt 2); ("label", VStr EmptyString);
                              ("display_name", VStr "Two")];
                       VDict [("value", VInt 3); ("label", VStr "Three");
                              ("display_name", VStr "Drei")]])]
              (VStr "choice")
              [VDict [("value", VInt 1); ("display_name", VStr "One")];
               VDict [("value", VInt 2); ("label", VStr EmptyString);
                      ("display_name", VStr "Two")];
               VDict [("value", VInt 3); ("label", VStr "Three");
                      ("display_name", VStr "Drei")]])
    as [out [choices' [Hrun [Hget HR]]]].
  - reflexivity.
  - reflexivity.
  - reflexivity.
  - reflexivity.
  - discriminate.
  - repeat constructor; eexists; eexists; split; reflexivity.
  - exists out. split; [exact Hrun|]. rewrite Hget. clear Hrun Hget.
    inversion HR as [|x1 y1 l1 l1' H1 HR1]; subst.
    inversion HR1 as [|x2 y2 l2 l2' H2 HR2]; subst.
    inversion HR2 as [|x3 y3 l3 l3' H3 HR3]; subst.
    inversion HR3; subst.
    destruct H1 as (d1 & v1 & b1 & E1 & V1 & -> & ->).
    destruct H2 as (d2 & v2 & b2 & E2 & V2 & -> & ->).
    destruct H3 as (d3 & v3 & b3 & E3 & V3 & -> & ->).
    injection E1 as <-. injection E2 as <-. injection E3 as <-.
    injection V1 as <-. injection V2 as <-. injection V3 as <-.
    reflexivity.
Defined.

(** C2 as stated fails: an entry with neither [label] nor [display_name] is
    decorated, with label [None]; nothing is raised. *)
Lemma decorate_choice_without_label :
  _decorate_layout 1
    (VDict [("id", VStr "kind"); ("type", VStr "choice");
            ("choices", VList [VDict [("value", VInt 1)]])])
    []
  = Ok (VDict [("id", VStr "kind"); ("type", VStr "select");
               ("choices", VList [VDict [("label", VNone); ("value", VInt 1)]])]).
Proof. reflexivity. Qed.

(** C10.  Decorating a leaf is partial.  A leaf without a [type] whose id has
    no metadata (or metadata without a [type]) fails with [KeyError 'type']
    when the merged record's type is read; a mapping that is not a container
    and has no [id] fails with [KeyError 'id']. *)
Theorem decorate_leaf_key_errors :
  forall fuel (fields_info : fields) (layout : dict),
    (forall id,
        Dict.get "id" layout = Some (VStr id) ->
        Dict.get "type" layout = None ->
        match Dict.get id fields_info with
        | None => True
        | Some md => Dict.get "type" md = None
        end ->
        _decorate_layout (S fuel) (VDict layout) fields_info
          = Raise (KeyError "type")) /\
    (is_container layout = false ->
     Dict.get "id" layout = None ->
     _decorate_layout (S fuel) (VDict layout) fields_info = Raise (KeyError "id")).
Proof.
  intros fuel fields_info layout. split.
  - intros id Hid Htype Hmd. simpl.
    rewrite (is_container_no_type _ Htype).
    unfold decorate_leaf, merged_metadata, getitem. rewrite Hid.
    cbn [bind]. unfold field_metadata. cbn [hashable negb].
    destruct (Dict.get id fields_info) as [md|]; cbn [bind];
      rewrite DictFacts.get_update_absent by assumption.
    + now rewrite Hmd.
    + reflexivity.
  - intros Hleaf Hid. simpl. rewrite Hleaf.
    unfold decorate_leaf, merged_metadata, getitem. now rewrite Hid.
Qed.

Lemma decorate_leaf_key_errors_witness :
  _decorate_layout 1 (VDict [("id", VStr "ghost"); ("label", VStr "Ghost")])
    (serializer_info bare_viewset) = Raise (KeyError "type") /\
  _decorate_layout 1 (VDict [("label", VStr "Orphan")])
    (serializer_info bare_viewset) = Raise (KeyError "id").
Proof.
  destruct (decorate_leaf_key_errors 0 (serializer_info bare_viewset)
              [("id", VStr "ghost"); ("label", VStr "Ghost")]) as [Htype _].
  destruct (decorate_leaf_key_errors 0 (serializer_info bare_viewset)
              [("label", VStr "Orphan")]) as [_ Hid].
  split.
  - apply (Htype "ghost"); [reflexivity|reflexivity|exact I].
  - apply Hid; reflexivity.
Defined.

(** ** Title and errors of the assembler *)

Lemma append_empty_r (s : string) : (s ++ EmptyString)%string = s.
Proof. induction s as [|c s IH]; simpl; congruence. Qed.

Lemma append_assoc (a b c : string) : ((a ++ b) ++ c = a ++ b ++ c)%string.
Proof. induction a as [|x a IH]; simpl; congruence. Qed.

(** The global title.  When no form identifier is requested, or no table of
    per-identifier titles is configured, the global title decides: a
    two-variant record gives its [edit] variant when an instance is present
    and its [create] variant otherwise; a string is indexed like a record, so
    the variant lookup raises; and with no title the result is "Editing X"
    when an instance is present and "Creating a new X" otherwise, X being the
    model's display name. *)
Theorem get_form_title_global :
  forall self has_instance form_name,
    form_name = EmptyString \/ form_titles self = [] ->
    (forall d create edit,
        form_title self = VDict d ->
        Dict.get "create" d = Some create ->
        Dict.get "edit" d = Some edit ->
        _get_form_title self has_instance form_name
          = Ok (if truthy has_instance then edit else create)) /\
    (forall s,
        form_title self = VStr s -> s <> EmptyString ->
        _get_form_title self has_instance form_name = Raise TypeError) /\
    (truthy (form_title self) = false ->
     _get_form_title self has_instance form_name
       = Ok (VStr ((if truthy has_instance then "Editing " else "Creating a new ")
                   ++ verbose_name self))).
Proof.
  intros self has_instance form_name Hglobal.
  assert (Hsel : negb (String.eqb form_name EmptyString) && truthy (VDict (form_titles self))
                 = false).
  { destruct Hglobal as [-> | ->]; simpl; auto using andb_false_r. }
  unfold _get_form_title. rewrite Hsel. repeat split.
  - intros d create edit Hd Hc He. rewrite Hd. simpl.
    destruct d as [|kv d']; [discriminate|]. unfold getitem.
    destruct (truthy has_instance); [now rewrite He | now rewrite Hc].
  - intros s Hs Hne. rewrite Hs. simpl.
    apply String.eqb_neq in Hne. now rewrite Hne.
  - intros Hnone. rewrite Hnone. unfold gettext.
    destruct (truthy has_instance); simpl; now rewrite append_empty_r.
Qed.

Lemma get_form_title_global_witness :
  _get_form_title (with_form_title two_titles bare_viewset) (VBool true) EmptyString
    = Ok (VStr "Change invoice") /\
  _get_form_title (with_form_title two_titles bare_viewset) (VBool false) "simple"
    = Ok (VStr "New invoice") /\
  _get_form_title (with_form_title (VStr "Invoice form") bare_viewset) (VBool true) EmptyString
    = Raise TypeError /\
  _get_form_title bare_viewset (VBool true) EmptyString = Ok (VStr "Editing Invoice") /\
  _get_form_title bare_viewset (VBool false) EmptyString = Ok (VStr "Creating a new Invoice").
Proof.
  split.
  { destruct (get_form_title_global (with_form_title two_titles bare_viewset)
                (VBool true) EmptyString (or_introl eq_refl)) as [H _].
    exact (H _ (VStr "New invoice") (VStr "Change invoice") eq_refl eq_refl eq_refl). }
  split.
  { destruct (get_form_title_global (with_form_title two_titles bare_viewset)
                (VBool false) "simple" (or_intror eq_refl)) as [H _].
    exact (H _ (VStr "New invoice") (VStr "Change invoice") eq_refl eq_refl eq_refl). }
  split.
  { destruct (get_form_title_global
                (with_form_title (VStr "Invoice form") bare_viewset)
                (VBool true) EmptyString (or_introl eq_refl)) as [_ [H _]].
    apply (H "Invoice form"); [reflexivity|discriminate]. }
  split.
  { destruct (get_form_title_global bare_viewset (VBool true) EmptyString
                (or_introl eq_refl)) as [_ [_ H]].
    exact (H eq_refl). }
  destruct (get_form_title_global bare_viewset (VBool false) EmptyString
              (or_introl eq_refl)) as [_ [_ H]].
  exact (H eq_refl).
Defined.

(** A global title given as a fixed string is not used, the title
    computation raises. *)
Lemma get_form_title_fixed_string :
  _get_form_title (with_form_title (VStr "Invoice form") bare_viewset) (VBool false) EmptyString
  = Raise TypeError.
Proof. reflexivity. Qed.

(** C3, at the failing input.  The form "simple" has a title of its own in
    the table of titles.  Line 249 selects it and line 251 tests it, but line
    252 reads [self.form_title]: the answer is the variant of the global
    title, and [TypeError] when there is no global title; the title of the
    form itself is never returned. *)
Example get_form_title_per_identifier :
  _get_form_title
    (with_form_titles [("simple", VDict [("create", VStr "New (simple)");
                                         ("edit", VStr "Change (simple)")])]
                      (with_form_title two_titles bare_viewset))
    (VBool false) "simple" = Ok (VStr "New invoice") /\
  _get_form_title
    (with_form_titles [("simple", VDict [("create", VStr "New (simple)");
                                         ("edit", VStr "Change (simple)")])]
                      bare_viewset)
    (VBool false) "simple" = Raise TypeError.
Proof. split; reflexivity. Qed.

(** C5.  A form identifier that is not empty and is not a linked form: with
    no table of layouts the assembler raises [Http404] with the "not
    configured" message; with a table that lacks the identifier it raises
    [Http404] with the "not found" message naming the identifier.  The two
    named routes hand the exception on to the framework, which answers 404. *)
Theorem get_form_metadata_not_found :
  forall fuel self request_ form_name,
    form_name <> EmptyString ->
    Dict.get form_name (linked_forms self) = None ->
    (form_layouts self = [] ->
     (forall has_instance base_path,
         _get_form_metadata (S fuel) self request_ has_instance form_name base_path
         = Raise (Http404 "Form layouts not configured. Please add form_layouts attribute on the viewset class")) /\
     form_with_name (S fuel) self request_ (Some form_name)
       = Raise (Http404 "Form layouts not configured. Please add form_layouts attribute on the viewset class") /\
     form_list_with_name (S fuel) self request_ (Some form_name)
       = Raise (Http404 "Form layouts not configured. Please add form_layouts attribute on the viewset class")) /\
    (form_layouts self <> [] ->
     Dict.get form_name (form_layouts self) = None ->
     (forall has_instance base_path,
         _get_form_metadata (S fuel) self request_ has_instance form_name base_path
         = Raise (Http404 ("Form with name " ++ form_name ++ " not found"))) /\
     form_with_name (S fuel) self request_ (Some form_name)
       = Raise (Http404 ("Form with name " ++ form_name ++ " not found")) /\
     form_list_with_name (S fuel) self request_ (Some form_name)
       = Raise (Http404 ("Form with name " ++ form_name ++ " not found"))).
Proof.
  intros fuel self request_ form_name Hname Hlinked.
  apply String.eqb_neq in Hname.
  assert (Hrun : forall has_instance base_path,
             _get_form_metadata (S fuel) self request_ has_instance form_name base_path
             = if negb (truthy_layouts (form_layouts self))
               then Raise (Http404 form_layouts_not_configured)
               else if negb (Dict.mem form_name (form_layouts self))
                    then Raise (Http404 (percent_s "Form with name %s not found"
                                                   form_name))
                    else build_form_metadata fuel self has_instance form_name
                           base_path).
  { intros has_instance base_path. cbn [_get_form_metadata].
    now rewrite Hname, Hlinked. }
  unfold form_with_name, form_list_with_name. cbn [or_empty]. split.
  - intros Hnone.
    assert (H : forall has_instance base_path,
               _get_form_metadata (S fuel) self request_ has_instance form_name
                 base_path = Raise (Http404 form_layouts_not_configured)).
    { intros. rewrite Hrun, Hnone. reflexivity. }
    repeat split; intros; apply H.
  - intros Hne Hget.
    assert (H : forall has_instance base_path,
               _get_form_metadata (S fuel) self request_ has_instance form_name
                 base_path
               = Raise (Http404 ("Form with name " ++ form_name ++ " not found"))).
    { intros. rewrite Hrun.
      destruct (form_layouts self) as [|l ls] eqn:E; [congruence|].
      cbn [truthy_layouts negb]. unfold Dict.mem. rewrite Hget. reflexivity. }
    repeat split; intros; apply H.
Qed.

Lemma get_form_metadata_not_found_witness :
  form_list_with_name 1 bare_viewset bare_request (Some "zzz")
    = Raise (Http404 "Form layouts not configured. Please add form_layouts attribute on the viewset class") /\
  form_list_with_name 1
    (with_form_layouts [("simple", LayoutValue (VList [VStr "a"]))] bare_viewset)
    bare_request (Some "zzz")
    = Raise (Http404 "Form with name zzz not found").
Proof.
  split.
  - destruct (get_form_metadata_not_found 0 bare_viewset bare_request "zzz")
      as [H _]; [discriminate|reflexivity|].
    destruct (H eq_refl) as [_ [_ Hlist]]. exact Hlist.
  - destruct (get_form_metadata_not_found 0
                (with_form_layouts [("simple", LayoutValue (VList [VStr "a"]))]
                                   bare_viewset)
                bare_request "zzz") as [_ H]; [discriminate|reflexivity|].
    destruct H as [_ [_ Hlist]]; [discriminate|reflexivity|]. exact Hlist.
Defined.

(** ** The generated layout *)

Section generated_facts.

Lemma mapM_map {A B C : Type} (g : A -> B) (f : B -> result C) l :
  mapM f (map g l) = mapM (fun x => f (g x)) l.
Proof. induction l as [|x t IH]; simpl; auto. now rewrite IH. Qed.

Lemma generated_layout_items_editable (fields_info : fields) :
  Forall (fun nf => exists r, Dict.get "read_only" (snd nf) = Some r) fields_info ->
  generated_layout_items fields_info
    = Ok (map (fun nf => VDict [("id", VStr (fst nf))]) (editable_fields fields_info)).
Proof.
  induction 1 as [|[name field] t [r Hr] Ht IH]; simpl; auto.
  simpl in Hr. unfold getitem, get_default. rewrite Hr, IH. simpl.
  destruct (truthy r); reflexivity.
Qed.

Lemma transform_field_ref self fuel name (form_defaults : defaults) wrap :
  keeps_field_ref name form_defaults ->
  exists out,
    _transform_layout (S fuel) self (VDict [("id", VStr name)]) form_defaults wrap
      = Ok (VDict out) /\
    Dict.get "id" out = Some (VStr name).
Proof.
  unfold keeps_field_ref. intros Hkeep.
  cbn [_transform_layout]. unfold apply_form_defaults.
  cbn [Dict.get String.eqb Ascii.eqb Bool.eqb hashable negb].
  set (merged := match Dict.get name form_defaults with
                 | Some overrides => Dict.update [("id", VStr name)] overrides
                 | None => [("id", VStr name)]
                 end).
  assert (Hrun : (match Dict.get name form_defaults with
                  | Some overrides =>
                      Ok (Dict.update [("id", VStr name)] overrides)
                  | None => Ok [("id", VStr name)]
                  end) = Ok merged).
  { unfold merged. now destruct (Dict.get name form_defaults). }
  rewrite Hrun. cbn [bind].
  assert (Hid : Dict.get "id" (call_values merged) = Some (VStr name)).
  { rewrite get_call_values. unfold merged.
    destruct (Dict.get name form_defaults) as [overrides|]; [|reflexivity].
    destruct Hkeep as [Hnoid _].
    now rewrite DictFacts.get_update_absent. }
  assert (Hleaf : is_str (layout_type (call_values merged)) "fieldset"
                  || is_str (layout_type (call_values merged)) "group" = false
                  /\ is_str (layout_type (call_values merged)) "columns" = false).
  { unfold merged.
    destruct (Dict.get name form_defaults) as [overrides|].
    - destruct Hkeep as [_ Hkind]. cbv zeta in Hkind.
      now apply orb_false_iff in Hkind.
    - split; reflexivity. }
  destruct Hleaf as [-> ->].
  destruct (is_str (layout_type (call_values merged)) "string").
  - destruct (string_or_textarea_total self (call_values merged) name Hid)
      as [out [Hout Hshape]].
    exists out. split; [exact Hout|].
    destruct Hshape as [->| ->]; [exact Hid|].
    now rewrite DictFacts.get_set_ne by discriminate.
  - exists (call_values merged). split; [reflexivity|exact Hid].
Qed.
End generated_facts.

(** C7 (as the code has it).  When no layout is configured for the selected
    form (and every metadata entry has its [read_only] flag), the layout that
    is transformed is one field reference per metadata entry whose flag is
    false, in the order of the metadata, and none for a read-only entry; the
    resolved layout is the list of their transforms.  Where the records of
    the defaults map leave these references leaves under their own ids, it is
    a list of nodes carrying exactly those ids in that order. *)
Theorem get_form_layout_generated :
  forall fuel self (fields_info : fields) form_name src,
    selected_layout self form_name = Ok src ->
    layout_configured src = false ->
    Forall (fun nf => exists r, Dict.get "read_only" (snd nf) = Some r) fields_info ->
    let form_defaults := selected_defaults self form_name fields_info in
    let editable := editable_fields fields_info in
    generated_layout_items fields_info
      = Ok (map (fun nf => VDict [("id", VStr (fst nf))]) editable) /\
    _get_form_layout (S (S fuel)) self fields_info form_name
      = (controls <- mapM (fun nf => _transform_layout (S fuel) self
                                       (VDict [("id", VStr (fst nf))])
                                       form_defaults true) editable ;;
         Ok (VList controls)) /\
    (Forall (fun nf => keeps_field_ref (fst nf) form_defaults) editable ->
     exists nodes,
       _get_form_layout (S (S fuel)) self fields_info form_name = Ok (VList nodes) /\
       map node_id nodes = map (fun nf => Some (VStr (fst nf))) editable).
Proof.
  intros fuel self fields_info form_name src Hsel Hnone Hro form_defaults editable.
  pose proof (generated_layout_items_editable fields_info Hro) as Hgen.
  fold editable in Hgen.
  assert (Hrun : _get_form_layout (S (S fuel)) self fields_info form_name
                 = (controls <- mapM (fun nf => _transform_layout (S fuel) self
                                                  (VDict [("id", VStr (fst nf))])
                                                  form_defaults true) editable ;;
                    Ok (VList controls))).
  { unfold _get_form_layout. rewrite Hsel. cbn [bind]. rewrite Hnone, Hgen.
    cbn [bind]. fold form_defaults.
    change (_transform_layout (S (S fuel)) self
              (VList (map (fun nf => VDict [("id", VStr (fst nf))]) editable))
              form_defaults false)
      with (controls <- mapM (fun l => _transform_layout (S fuel) self l
                                         form_defaults true)
                          (map (fun nf => VDict [("id", VStr (fst nf))]) editable) ;;
            Ok (VList controls)).
    now rewrite mapM_map. }
  split; [exact Hgen|]. split; [exact Hrun|].
  intros Hdef. rewrite Hrun. clear Hrun Hgen.
  induction Hdef as [|[name field] t Hn Ht IH].
  - exists []. split; reflexivity.
  - destruct IH as [nodes [Hnodes Hids]]. simpl fst in *.
    destruct (transform_field_ref self fuel name form_defaults true Hn)
      as [out [Hout Hid]].
    cbn [mapM]. cbn [fst]. rewrite Hout. cbn [bind].
    destruct (mapM _ t) as [ys| |]; try discriminate.
    cbn [bind] in *. injection Hnodes as <-.
    exists (VDict out :: ys). split; [reflexivity|].
    cbn [map node_id fst]. now rewrite Hid, Hids.
Qed.

Lemma get_form_layout_generated_witness :
  exists nodes,
    _get_form_layout 2
      (with_form_defaults (DefaultsValue [("a", [("label", VStr "First")])])
         bare_viewset)
      (serializer_info bare_viewset) EmptyString
      = Ok (VList nodes) /\
    map node_id nodes = [Some (VStr "a"); Some (VStr "c")].
Proof.
  destruct (get_form_layout_generated 0
              (with_form_defaults (DefaultsValue [("a", [("label", VStr "First")])])
                 bare_viewset)
              (serializer_info bare_viewset)
              EmptyString (LayoutValue VNone) eq_refl eq_refl) as [_ [_ H]].
  - repeat constructor; simpl; eauto.
  - apply H. repeat constructor.
Defined.

(** C7 as stated fails: a record of the defaults map may replace the id of a
    generated field reference.  Here it turns the reference to [a] into one
    to the read-only field [b]: the resolved layout has a node for [b] and
    none for [a]. *)
Lemma get_form_layout_generated_id_replaced :
  editable_fields (serializer_info bare_viewset)
  = [("a", [("type", VStr "string"); ("read_only", VBool false)]);
     ("c", [("type", VStr "string"); ("read_only", VBool false)])] /\
  _get_form_layout 2
    (with_form_defaults (DefaultsValue [("a", [("id", VStr "b")])]) bare_viewset)
    (serializer_info bare_viewset) EmptyString
  = Ok (VList [VDict [("id", VStr "b")]; VDict [("id", VStr "c")]]).
Proof. split; reflexivity. Qed.

(** ** The path of a linked form *)

Section string_facts.
Local Open Scope string_scope.

Lemma count_slash_append a b :
  count_slash (a ++ b) = count_slash a + count_slash b.
Proof. induction a as [|c a IH]; simpl; auto. rewrite IH. lia. Qed.

Lemma last_char_append a b :
  b <> EmptyString -> last_char (a ++ b) = last_char b.
Proof.
  intros Hb. induction a as [|c a IH]; simpl; auto.
  rewrite IH. destruct b as [|x b]; [congruence|].
  simpl. destruct (last_char b); reflexivity.
Qed.

Lemma last_char_None s : last_char s = None -> s = EmptyString.
Proof. destruct s as [|c s]; simpl; auto. destruct (last_char s); discriminate. Qed.

Lemma segment_chars_count s : segment_chars s = true -> count_slash s = 0.
Proof.
  induction s as [|c s IH]; simpl; auto.
  intros H. apply andb_true_iff in H as [H Hs].
  apply andb_true_iff in H as [Hc _]. apply negb_true_iff in Hc.
  rewrite Hc. simpl. auto.
Qed.

Lemma segment_last_char s l :
  segment_chars s = true -> last_char s = Some l ->
  Ascii.eqb l "/"%char = false /\ Ascii.eqb l (ascii_of_nat 10) = false.
Proof.
  revert l. induction s as [|c s IH]; simpl; [discriminate|].
  intros l H Hl. apply andb_true_iff in H as [H Hs].
  apply andb_true_iff in H as [Hc Hn].
  apply negb_true_iff in Hc, Hn.
  destruct (last_char s) as [l'|] eqn:E.
  - inversion Hl; subst. auto.
  - inversion Hl; subst. auto.
Qed.

Lemma strip_prefix_Some p s r : strip_prefix p s = Some r -> s = p ++ r.
Proof.
  revert s. induction p as [|a p IH]; simpl; intros s H.
  - congruence.
  - destruct s as [|b s]; [discriminate|].
    destruct (Ascii.eqb a b) eqn:E; [|discriminate].
    apply Ascii.eqb_eq in E. subst. f_equal. auto.
Qed.

Lemma strip_prefix_append p r : strip_prefix p (p ++ r) = Some r.
Proof. induction p as [|a p IH]; simpl; auto. now rewrite Ascii.eqb_refl. Qed.

(** Two ways of cutting a string at a slash after a slash-free part agree. *)
Lemma first_slash_unique a a' b b' :
  count_slash a = 0 -> count_slash a' = 0 ->
  a ++ String "/" b = a' ++ String "/" b' -> a = a'.
Proof.
  revert a'. induction a as [|c a IH]; intros [|c' a']; simpl; auto.
  - intros _ H [= <- _]. simpl in H. discriminate.
  - intros H _ [= -> _]. simpl in H. discriminate.
  - intros H H' [= -> Heq]. f_equal.
    destruct (Ascii.eqb c' "/"); [discriminate|]. eauto.
Qed.
End string_facts.

Section match_facts.
Local Open Scope string_scope.

(** What [[^/]*] consumes has no slash. *)
Lemma not_slash_star_Some {A} t (k : string -> option A) x :
  not_char_star "/" t k = Some x ->
  exists u rest, t = u ++ rest /\ count_slash u = 0 /\ k rest = Some x.
Proof.
  induction t as [|a t IH]; simpl.
  - intros H. exists EmptyString, EmptyString. auto.
  - destruct (Ascii.eqb a "/") eqn:E.
    + intros H. exists EmptyString, (String a t). auto.
    + destruct (not_char_star "/" t k) as [y|] eqn:Ey.
      * intros [= <-]. destruct (IH eq_refl) as [u [rest [-> [Hu Hk]]]].
        exists (String a u), rest. simpl. rewrite E. auto.
      * intros H. exists EmptyString, (String a t). auto.
Qed.

(** A segment followed by the end, or by a slash, is consumed whole when
    the continuation accepts what follows. *)
Lemma not_slash_star_whole {A} u rest (k : string -> option A) x :
  segment_chars u = true ->
  (rest = EmptyString \/ exists rest', rest = String "/" rest') ->
  k rest = Some x ->
  not_char_star "/" (u ++ rest) k = Some x.
Proof.
  intros Hu Hrest Hk. induction u as [|a u IH]; simpl.
  - destruct Hrest as [->|[rest' ->]]; simpl; auto.
  - simpl in Hu. apply andb_true_iff in Hu as [Ha Hu].
    apply andb_true_iff in Ha as [Ha _]. apply negb_true_iff in Ha.
    rewrite Ha, IH; auto.
Qed.

Lemma tail_k_Some s x :
  tail_k s = Some x ->
  (s = EmptyString \/ s = newline \/ s = "/" \/ s = "/" ++ newline).
Proof.
  unfold tail_k. cbn [re_match].
  destruct (strip_prefix "/" s) as [s'|] eqn:Es.
  - apply strip_prefix_Some in Es. subst s.
    destruct (String.eqb s' EmptyString || String.eqb s' newline) eqn:E1.
    + intros _. apply orb_true_iff in E1 as [E1|E1];
        apply String.eqb_eq in E1; subst; auto.
    + destruct (String.eqb ("/" ++ s') EmptyString || String.eqb ("/" ++ s') newline) eqn:E2.
      * apply orb_true_iff in E2 as [E2|E2];
          apply String.eqb_eq in E2; discriminate E2.
      * intros H. discriminate H.
  - destruct (String.eqb s EmptyString || String.eqb s newline) eqn:E1.
    + intros _. apply orb_true_iff in E1 as [E1|E1];
        apply String.eqb_eq in E1; subst; auto.
    + intros H. discriminate H.
Qed.

Lemma form_suffix_unfold s :
  re_match form_suffix s Some =
    match strip_prefix "/form" s with
    | None => None
    | Some r =>
        match
          match strip_prefix "/" r with
          | Some (String a t) =>
              if Ascii.eqb a "/" then None else not_char_star "/" t tail_k
          | _ => None
          end
        with
        | Some x => Some x
        | None => tail_k r
        end
    end.
Proof.
  unfold form_suffix, tail_k. cbn [re_match].
  destruct (strip_prefix "/form" s) as [r|]; [|reflexivity].
  destruct (strip_prefix "/" r) as [[|a t]|]; reflexivity.
Qed.

(** The shape of a subject the pattern matches at its start. *)
Lemma form_suffix_shape s x :
  re_match form_suffix s Some = Some x ->
  exists r, s = "/form" ++ r /\
    (r = EmptyString \/ r = newline \/
     exists u w, r = "/" ++ u ++ w /\ count_slash u = 0 /\
                 (w = EmptyString \/ w = newline \/ w = "/" \/ w = "/" ++ newline)).
Proof.
  rewrite form_suffix_unfold.
  destruct (strip_prefix "/form" s) as [r|] eqn:Es; [|discriminate].
  apply strip_prefix_Some in Es. intros H. exists r. split; auto.
  assert (Htail : tail_k r = Some x ->
            r = EmptyString \/ r = newline \/
            exists u w, r = "/" ++ u ++ w /\ count_slash u = 0 /\
                 (w = EmptyString \/ w = newline \/ w = "/" \/ w = "/" ++ newline)).
  { intros Hk. apply tail_k_Some in Hk.
    destruct Hk as [->|[->|[->| ->]]]; auto.
    - right. right. exists EmptyString, EmptyString. auto.
    - right. right. exists EmptyString, newline. auto. }
  destruct (strip_prefix "/" r) as [[|a t]|] eqn:Er; auto.
  destruct (Ascii.eqb a "/") eqn:Ea; auto.
  destruct (not_char_star "/" t tail_k) as [y|] eqn:Ey; auto.
  apply strip_prefix_Some in Er. subst r.
  apply not_slash_star_Some in Ey as [u [rest [-> [Hu Hk]]]].
  apply tail_k_Some in Hk.
  right. right. exists (String a u), rest. simpl. rewrite Ea.
  repeat split; auto.
Qed.
End match_facts.

Section cut_facts.
Local Open Scope string_scope.

Lemma length_append a b : String.length (a ++ b) = String.length a + String.length b.
Proof. induction a as [|c a IH]; simpl; auto. Qed.

Lemma count_slash_last u : count_slash u = 0 -> last_char u <> Some "/"%char.
Proof.
  induction u as [|c u IH]; simpl; [discriminate|].
  destruct (Ascii.eqb c "/") eqn:E; [discriminate|]. simpl. intros Hu.
  destruct (last_char u) as [l|]; auto.
  intros [= ->]. discriminate E.
Qed.

Lemma tail_last_char w :
  w = "/" \/ w = "/" ++ newline ->
  last_char w = Some "/"%char \/ last_char w = Some (ascii_of_nat 10).
Proof. intros [->| ->]; auto. Qed.

Lemma tail_count w :
  w = EmptyString \/ w = newline \/ w = "/" \/ w = "/" ++ newline ->
  (count_slash w = 0 /\ (w = EmptyString \/ w = newline)) \/
  (count_slash w = 1 /\ (w = "/" \/ w = "/" ++ newline)).
Proof. intros [->|[->|[->| ->]]]; auto. Qed.

Lemma count_slash_one e : e = EmptyString \/ e = "/" -> count_slash e = 0 -> e = EmptyString.
Proof. intros [->| ->]; auto. discriminate. Qed.

Lemma last_char_tail u w :
  w = "/" \/ w = "/" ++ newline ->
  last_char ("form" ++ "/" ++ u ++ w) = Some "/"%char \/
  last_char ("form" ++ "/" ++ u ++ w) = Some (ascii_of_nat 10).
Proof.
  intros Hw.
  assert (Hne : w <> EmptyString) by (destruct Hw as [->| ->]; discriminate).
  change ("form" ++ "/" ++ u ++ w) with ("form/" ++ (u ++ w)).
  assert (Huw : u ++ w <> EmptyString) by (destruct u; simpl; [assumption|discriminate]).
  rewrite !last_char_append by assumption.
  now apply tail_last_char.
Qed.

(** No match starts before a [/form/<segment>] suffix. *)
Lemma no_match_before_segment y seg e :
  y <> EmptyString -> seg <> EmptyString -> segment_chars seg = true -> e = EmptyString \/ e = "/" ->
  re_match form_suffix (y ++ "/form/" ++ seg ++ e) Some = None.
Proof.
  intros Hy Hseg Hchars He.
  destruct (re_match form_suffix _ Some) as [x|] eqn:E; [exfalso|reflexivity].
  apply form_suffix_shape in E as [r [Hs Hr]].
  destruct y as [|c y']; [congruence|].
  change (String c (y' ++ "/form/" ++ seg ++ e) = String "/" ("form" ++ r)) in Hs.
  injection Hs as -> Hs.
  change (y' ++ "/form/" ++ seg ++ e = "form" ++ r) in Hs.
  pose proof (f_equal count_slash Hs) as Hc.
  rewrite !count_slash_append, (segment_chars_count seg Hchars) in Hc.
  change (count_slash "/form/") with 2 in Hc.
  change (count_slash "form") with 0 in Hc.
  destruct Hr as [->|[->|[u [w [-> [Hu Hw]]]]]];
    [simpl in Hc; lia | simpl in Hc; lia |].
  rewrite !count_slash_append, Hu in Hc.
  change (count_slash "/") with 1 in Hc.
  destruct (tail_count w Hw) as [[Hw0 _]|[Hw1 Hw']]; [lia|].
  assert (e = EmptyString) by (apply count_slash_one; auto; lia). subst e.
  pose proof (f_equal last_char Hs) as Hl.
  rewrite append_empty_r in Hl.
  rewrite <- append_assoc in Hl.
  rewrite last_char_append in Hl by assumption.
  destruct (last_char seg) as [l|] eqn:El.
  - destruct (segment_last_char seg l Hchars El) as [Hl1 Hl2].
    destruct (last_char_tail u w Hw') as [Hw2|Hw2]; rewrite Hw2 in Hl;
      injection Hl as ->; discriminate.
  - apply last_char_None in El. contradiction.
Qed.

(** No match starts before a [/form] suffix, unless the part before it
    itself ends with [/form]. *)
Lemma no_match_before_form y e :
  y <> EmptyString -> y <> "/form" -> e = EmptyString \/ e = "/" ->
  re_match form_suffix (y ++ "/form" ++ e) Some = None.
Proof.
  intros Hy Hform He.
  destruct (re_match form_suffix _ Some) as [x|] eqn:E; [exfalso|reflexivity].
  apply form_suffix_shape in E as [r [Hs Hr]].
  destruct y as [|c y']; [congruence|].
  change (String c (y' ++ "/form" ++ e) = String "/" ("form" ++ r)) in Hs.
  injection Hs as -> Hs.
  change (y' ++ "/form" ++ e = "form" ++ r) in Hs.
  pose proof (f_equal String.length Hs) as Hlen.
  rewrite !length_append in Hlen.
  change (String.length "/form") with 5 in Hlen.
  change (String.length "form") with 4 in Hlen.
  pose proof (f_equal count_slash Hs) as Hc.
  rewrite !count_slash_append in Hc.
  change (count_slash "/form") with 1 in Hc.
  change (count_slash "form") with 0 in Hc.
  destruct Hr as [->|[->|[u [w [-> [Hu Hw]]]]]].
  - simpl in Hlen. lia.
  - change (String.length newline) with 1 in Hlen.
    assert (y' = EmptyString) by (destruct y'; simpl in *; [auto|lia]).
    subst y'. destruct He as [->| ->]; discriminate Hs.
  - assert (Hy0 : count_slash y' = 0).
    { rewrite !count_slash_append, Hu in Hc.
      change (count_slash "/") with 1 in Hc.
      destruct (tail_count w Hw) as [[Hw0 _]|[Hw1 Hw']]; [lia|].
      destruct He as [->| ->]; [|simpl in Hc; lia].
      exfalso.
      pose proof (f_equal last_char Hs) as Hl.
      rewrite append_empty_r in Hl.
      rewrite last_char_append in Hl by discriminate.
      destruct (last_char_tail u w Hw') as [Hw2|Hw2]; rewrite Hw2 in Hl;
        discriminate. }
    apply Hform. f_equal.
    apply (first_slash_unique y' "form" ("form" ++ e) (u ++ w)); auto.
Qed.

Lemma match_at_segment seg e :
  seg <> EmptyString -> segment_chars seg = true -> e = EmptyString \/ e = "/" ->
  re_match form_suffix ("/form/" ++ seg ++ e) Some = Some EmptyString.
Proof.
  intros Hseg Hchars He. rewrite form_suffix_unfold.
  change (strip_prefix "/form" ("/form/" ++ seg ++ e))
    with (Some ("/" ++ seg ++ e)).
  change (strip_prefix "/" ("/" ++ seg ++ e)) with (Some (seg ++ e)).
  destruct seg as [|a t]; [congruence|]. simpl in Hchars.
  apply andb_true_iff in Hchars as [Ha Ht].
  apply andb_true_iff in Ha as [Ha _]. apply negb_true_iff in Ha.
  cbn [append strip_prefix]. rewrite Ascii.eqb_refl, Ha.
  rewrite (not_slash_star_whole t e tail_k EmptyString); auto.
  - destruct He as [->| ->]; eauto.
  - destruct He as [->| ->]; reflexivity.
Qed.

Lemma match_at_form e :
  e = EmptyString \/ e = "/" -> re_match form_suffix ("/form" ++ e) Some = Some EmptyString.
Proof. intros [->| ->]; reflexivity. Qed.

Lemma re_sub_empty_nil fuel : re_sub_empty fuel form_suffix EmptyString = EmptyString.
Proof. destruct fuel; reflexivity. Qed.

(** When the pattern matches the whole suffix [t] and nothing earlier, the
    substitution cuts [t] off. *)
Lemma re_sub_empty_cut (ok : string -> Prop) t :
  (forall y, y <> EmptyString -> ok y -> re_match form_suffix (y ++ t) Some = None) ->
  re_match form_suffix t Some = Some EmptyString ->
  forall p fuel,
    all_suffixes ok p ->
    String.length p < fuel ->
    re_sub_empty fuel form_suffix (p ++ t) = p.
Proof.
  intros Hbefore Hat. induction p as [|c p IH]; intros fuel Hall Hfuel.
  - destruct fuel; [lia|]. change (EmptyString ++ t) with t.
    cbn [re_sub_empty]. rewrite Hat. apply re_sub_empty_nil.
  - destruct fuel; [simpl in Hfuel; lia|]. destruct Hall as [Hok Hall].
    cbn [re_sub_empty].
    rewrite (Hbefore (String c p)) by (auto; discriminate).
    change (String c p ++ t) with (String c (p ++ t)). cbv iota.
    f_equal. apply IH; auto. simpl in Hfuel. lia.
Qed.

Lemma endswith_form_suffixes p :
  endswith_form p = false ->
  all_suffixes (fun y => y <> "/form") p.
Proof.
  induction p as [|c p IH]; [intros _; exact I|].
  cbn [endswith_form all_suffixes].
  intros H. apply orb_false_iff in H as [H1 H2]. split; [|auto].
  now apply String.eqb_neq.
Qed.

Lemma all_suffixes_True p : all_suffixes (fun _ => True) p.
Proof. induction p; simpl; auto. Qed.

Lemma linked_form_path_segment p seg e name :
  is_segment seg = true -> e = EmptyString \/ e = "/" ->
  linked_form_path (p ++ "/form/" ++ seg ++ e) name = p ++ "/" ++ name ++ "/".
Proof.
  intros Hseg He. unfold is_segment in Hseg.
  apply andb_true_iff in Hseg as [Hne Hchars].
  apply negb_true_iff, String.eqb_neq in Hne.
  unfold linked_form_path. f_equal.
  apply (re_sub_empty_cut (fun _ => True)).
  - intros y Hy _. now apply no_match_before_segment.
  - now apply match_at_segment.
  - apply all_suffixes_True.
  - rewrite length_append. lia.
Qed.

Lemma linked_form_path_form p e name :
  endswith_form p = false -> e = EmptyString \/ e = "/" ->
  linked_form_path (p ++ "/form" ++ e) name = p ++ "/" ++ name ++ "/".
Proof.
  intros Hp He. unfold linked_form_path. f_equal.
  apply (re_sub_empty_cut (fun y => y <> "/form")).
  - intros y Hy Hform. now apply no_match_before_form.
  - now apply match_at_form.
  - now apply endswith_form_suffixes.
  - rewrite length_append. lia.
Qed.
End cut_facts.

(** C6.  A form identifier that is a key of the linked-forms table: the
    assembler returns what the assembler of the linked viewset returns, called
    with the link id as its instance flag, the linked form's own identifier,
    and the rewritten path; when that identifier is empty, or names a form of
    the linked viewset that is not linked in turn, this is the response the
    linked viewset builds from its own layout, title and URL.  Of the host
    only the linked-forms table is read: any host with the same table,
    whatever its layouts, defaults, instance flag and base path, gives the
    same result, and neither 404 is raised by the host.  The rewritten path is
    the request path without a trailing [/form/<segment>] (or [/form], with or
    without a final slash), followed by [/<form_name>/]. *)
Theorem linked_form_delegation :
  forall fuel self request_ has_instance form_name base_path form_def,
    form_name <> EmptyString ->
    Dict.get form_name (linked_forms self) = Some form_def ->
    _get_form_metadata (S fuel) self request_ has_instance form_name base_path
      = _get_form_metadata fuel (lf_viewset form_def) request_
          (linked_form_link_id request_ form_def) (lf_form_id form_def)
          (linked_form_path (path request_) form_name) /\
    (lf_form_id form_def = EmptyString \/
     (Dict.get (lf_form_id form_def) (linked_forms (lf_viewset form_def)) = None /\
      Dict.mem (lf_form_id form_def) (form_layouts (lf_viewset form_def)) = true) ->
     _get_form_metadata (S (S fuel)) self request_ has_instance form_name base_path
       = build_form_metadata fuel (lf_viewset form_def)
           (linked_form_link_id request_ form_def) (lf_form_id form_def)
           (linked_form_path (path request_) form_name)) /\
    (forall self' has_instance' base_path',
        linked_forms self' = linked_forms self ->
        _get_form_metadata (S fuel) self' request_ has_instance' form_name base_path'
          = _get_form_metadata (S fuel) self request_ has_instance form_name base_path) /\
    (forall prefix segment e,
        is_segment segment = true -> e = EmptyString \/ e = "/" ->
        path request_ = (prefix ++ "/form/" ++ segment ++ e)%string ->
        linked_form_path (path request_) form_name
          = (prefix ++ "/" ++ form_name ++ "/")%string) /\
    (forall prefix e,
        endswith_form prefix = false -> e = EmptyString \/ e = "/" ->
        path request_ = (prefix ++ "/form" ++ e)%string ->
        linked_form_path (path request_) form_name
          = (prefix ++ "/" ++ form_name ++ "/")%string).
Proof.
  intros fuel self request_ has_instance form_name base_path form_def Hname Hlinked.
  apply String.eqb_neq in Hname.
  assert (Hrun : forall fuel' self' has_instance' base_path',
             linked_forms self' = linked_forms self ->
             _get_form_metadata (S fuel') self' request_ has_instance' form_name
               base_path'
             = _get_form_metadata fuel' (lf_viewset form_def) request_
                 (linked_form_link_id request_ form_def) (lf_form_id form_def)
                 (linked_form_path (path request_) form_name)).
  { intros fuel' self' has_instance' base_path' Heq.
    cbn [_get_form_metadata]. rewrite Hname, Heq, Hlinked. reflexivity. }
  split; [now apply Hrun|]. split; [|split; [|split]].
  - intros Hown. rewrite (Hrun (S fuel) self has_instance base_path eq_refl).
    cbn [_get_form_metadata].
    destruct Hown as [->|[Hnot Hmem]]; [reflexivity|].
    rewrite Hnot, Hmem.
    destruct (negb (String.eqb (lf_form_id form_def) EmptyString)); [|reflexivity].
    unfold Dict.mem in Hmem.
    destruct (form_layouts (lf_viewset form_def)); [discriminate|reflexivity].
  - intros self' has_instance' base_path' Heq.
    rewrite (Hrun fuel self' has_instance' base_path' Heq).
    symmetry. now apply Hrun.
  - intros prefix segment e Hseg He ->. now apply linked_form_path_segment.
  - intros prefix e Hp He ->. now apply linked_form_path_form.
Qed.

Lemma linked_form_delegation_witness :
  _get_form_metadata 4 linking_viewset address_request (VBool false) "address"
    "/api/invoices/7/"
    = build_form_metadata 2 bare_viewset (VStr "7") EmptyString "/api/invoices/7/address/" /\
  (exists layout,
      _get_form_metadata 4 linking_viewset address_request (VBool false) "address"
        "/api/invoices/7/"
      = Ok (VDict [("layout", layout);
                   ("formTitle", VStr "Editing Invoice");
                   ("actions", _get_actions (VStr "7"));
                   ("method", VStr "patch");
                   ("hasInitialData", VStr "7");
                   ("djangoUrl", VStr "/api/invoices/7/address/")])).
Proof.
  destruct (linked_form_delegation 2 linking_viewset address_request (VBool false)
              "address" "/api/invoices/7/"
              {| lf_viewset := bare_viewset;
                 lf_link_id := Some "invoice";
                 lf_form_id := EmptyString |})
    as [_ [Hbuild [_ [Hpath _]]]].
  - discriminate.
  - reflexivity.
  - assert (Hp : linked_form_path (path address_request) "address"
                 = "/api/invoices/7/address/").
    { apply (Hpath "/api/invoices/7" "address" "/");
        [reflexivity | now right | reflexivity]. }
    specialize (Hbuild (or_introl eq_refl)). rewrite Hp in Hbuild.
    split; [exact Hbuild|].
    rewrite Hbuild. eexists. reflexivity.
Defined.

(** ** More on the transformer and the decorator *)

Section pipeline_facts.
Import Dict DictFacts.

Lemma mapM_Ok_Forall {A B : Type} (f : A -> result B) (P : B -> Prop) l ys :
  mapM f l = Ok ys ->
  (forall x y, In x l -> f x = Ok y -> P y) ->
  Forall P ys.
Proof.
  revert ys. induction l as [|x t IH]; simpl; intros ys H HP.
  - injection H as <-. constructor.
  - destruct (f x) as [y| |] eqn:Ex; try discriminate. simpl in H.
    destruct (mapM f t) as [ys'| |] eqn:Et; try discriminate. simpl in H.
    injection H as <-. constructor; eauto.
Qed.

Lemma mapM_Ok_length {A B : Type} (f : A -> result B) l ys :
  mapM f l = Ok ys -> length ys = length l.
Proof.
  revert ys. induction l as [|x t IH]; simpl; intros ys H.
  - now injection H as <-.
  - destruct (f x) as [y| |]; try discriminate. simpl in H.
    destruct (mapM f t) as [ys'| |]; try discriminate. simpl in H.
    injection H as <-. simpl. f_equal. auto.
Qed.

Lemma mapM_Raise_In {A B : Type} (f : A -> result B) l e :
  mapM f l = Raise e -> exists x, In x l /\ f x = Raise e.
Proof.
  induction l as [|x t IH]; simpl; [discriminate|].
  destruct (f x) as [y| |] eqn:Ex; simpl.
  - destruct (mapM f t) as [ys'| |]; simpl; try discriminate.
    intros H. destruct (IH H) as [x' [Hin Hx']]. eauto.
  - intros [= <-]. eauto.
  - discriminate.
Qed.

Lemma is_container_kind (m : dict) :
  is_container m
  = (is_str (layout_type m) "fieldset" || is_str (layout_type m) "group")
    || is_str (layout_type m) "columns".
Proof.
  unfold is_container, layout_type, get_default.
  destruct (get "type" m) as [t|]; simpl; [|reflexivity].
  destruct (is_str t "fieldset"), (is_str t "columns"), (is_str t "group");
    reflexivity.
Qed.

Lemma is_container_set_other k v (m : dict) :
  k <> "type" -> is_container (set k v m) = is_container m.
Proof.
  intros Hk. unfold is_container, get_default.
  rewrite get_set_ne by congruence. reflexivity.
Qed.

Lemma is_container_del_other k (m : dict) :
  k <> "type" -> is_container (del k m) = is_container m.
Proof.
  intros Hk. unfold is_container, get_default.
  rewrite get_del_ne by congruence. reflexivity.
Qed.

Lemma string_or_textarea_leaf self (m : dict) v :
  string_or_textarea self m = Ok v ->
  is_container m = false ->
  exists out, v = VDict out /\ is_container out = false.
Proof.
  unfold string_or_textarea. intros H Hm.
  destruct (queryset_model self) as [model|].
  - destruct (id <- getitem "id" m ;; get_field model id) as [[]|[]|];
      try discriminate; injection H as <-; eexists; split; try reflexivity; auto.
    unfold is_container, get_default. now rewrite get_set_eq.
  - injection H as <-. eauto.
Qed.

(** What the transformer returns can be walked by the decorator. *)
Lemma transform_decorable fuel :
  forall self layout (form_defaults : defaults) wrap v,
    _transform_layout fuel self layout form_defaults wrap = Ok v -> decorable v.
Proof.
  induction fuel as [|fuel IH]; intros self layout form_defaults wrap v H;
    [discriminate|].
  destruct layout as [| | | s | items | items | d | r]; cbn [_transform_layout] in H;
    try discriminate.
  - eauto.
  - destruct (mapM _ items) as [controls| |] eqn:Em; simpl in H; try discriminate.
    assert (Hall : Forall decorable controls).
    { eapply mapM_Ok_Forall; [exact Em|]. intros x y _ Hx.
      exact (IH _ _ _ _ _ Hx). }
    destruct wrap; injection H as <-.
    + eapply decorable_container; [reflexivity|reflexivity|]. now constructor.
    + now constructor.
  - destruct (mapM _ items) as [controls| |] eqn:Em; simpl in H; try discriminate.
    assert (Hall : Forall decorable controls).
    { eapply mapM_Ok_Forall; [exact Em|]. intros x y _ Hx.
      exact (IH _ _ _ _ _ Hx). }
    destruct wrap; injection H as <-.
    + eapply decorable_container; [reflexivity|reflexivity|]. now constructor.
    + now constructor.
  - destruct (apply_form_defaults d form_defaults) as [merged| |];
      cbn [bind] in H; try discriminate.
    set (m := call_values merged) in *.
    pose proof (is_container_kind m) as Hkind.
    destruct (is_str (layout_type m) "fieldset" || is_str (layout_type m) "group")
      eqn:Hfg.
    + destruct (getitem "controls" m) as [c| |]; cbn [bind] in H; try discriminate.
      destruct (_transform_layout fuel self c form_defaults false) as [c'| |] eqn:Ec;
        cbn [bind] in H; try discriminate.
      injection H as <-.
      apply (decorable_container _ c').
      * rewrite is_container_set_other by discriminate. now rewrite Hkind.
      * apply get_set_eq.
      * eauto.
    + destruct (is_str (layout_type m) "columns") eqn:Hcol.
      * destruct (getitem "columns" m) as [c| |]; cbn [bind] in H; try discriminate.
        destruct (_transform_layout fuel self c form_defaults false) as [c'| |] eqn:Ec;
          cbn [bind] in H; try discriminate.
        injection H as <-.
        apply (decorable_container _ c').
        -- rewrite is_container_del_other, is_container_set_other by discriminate.
           now rewrite Hkind.
        -- rewrite get_del_ne by discriminate. apply get_set_eq.
        -- eauto.
      * simpl in Hkind.
        destruct (is_str (layout_type m) "string").
        -- destruct (string_or_textarea_leaf self m v H Hkind) as [out [-> Hout]].
           now apply decorable_leaf.
        -- injection H as <-. now apply decorable_leaf.
Qed.

Lemma decorate_choice_errors x :
  decorate_choice x <> Raise (KeyError "controls").
Proof.
  destruct x; simpl; try discriminate.
  unfold getitem. destruct (get "value" d); simpl; discriminate.
Qed.

Lemma decorate_leaf_outcomes (layout : dict) (fields_info : fields) :
  decorate_leaf layout fields_info <> Ok VNone /\
  decorate_leaf layout fields_info <> Raise (KeyError "controls").
Proof.
  unfold decorate_leaf, merged_metadata, getitem.
  destruct (get "id" layout) as [id|]; cbn [bind]; [|split; discriminate].
  unfold field_metadata.
  destruct (negb (hashable id)); cbn [bind]; [split; discriminate|].
  set (md0 := match id with
              | VStr s => match get s fields_info with
                          | Some md => Ok md
                          | None => Ok []
                          end
              | _ => Ok []
              end).
  assert (Hmd0 : exists md, md0 = Ok md).
  { unfold md0. destruct id; eauto. destruct (get s fields_info); eauto. }
  destruct Hmd0 as [md ->]. cbn [bind].
  destruct (get "type" (update md layout)) as [t|]; cbn [bind];
    [|split; discriminate].
  set (md' := if is_str t "choice" then _ else _).
  unfold decorate_choices, getitem.
  destruct (truthy (get_default "choices" VNone md')); cbn [bind];
    [|split; discriminate].
  destruct (get "choices" md') as [choices|]; cbn [bind]; [|split; discriminate].
  destruct (iterate choices) as [items| |] eqn:Ei; cbn [bind].
  - destruct (mapM decorate_choice items) as [cs|e|] eqn:Em; cbn [bind];
      try (split; discriminate).
    split; [discriminate|]. intros [= ->].
    apply mapM_Raise_In in Em as [x [_ Hx]].
    now apply (decorate_choice_errors x).
  - split; [discriminate|]. intros [= ->].
    destruct choices; simpl in Ei; discriminate.
  - split; discriminate.
Qed.

Lemma decorable_decorate fuel :
  forall v (fields_info : fields),
    decorable v ->
    _decorate_layout fuel v fields_info <> Ok VNone /\
    _decorate_layout fuel v fields_info <> Raise (KeyError "controls").
Proof.
  induction fuel as [|fuel IH]; intros v fields_info Hv; [split; discriminate|].
  inversion Hv as [l Hl | d c Hcont Hc Hdc | d Hleaf]; subst;
    cbn [_decorate_layout].
  - destruct (mapM _ l) as [ret|e|] eqn:Em; cbn [bind]; try (split; discriminate).
    split; [discriminate|]. intros [= ->].
    apply mapM_Raise_In in Em as [x [Hin Hx]].
    rewrite Forall_forall in Hl.
    now destruct (IH x fields_info (Hl x Hin)) as [_ Hne].
  - rewrite Hcont. unfold getitem. rewrite Hc. cbn [bind].
    destruct (IH c fields_info Hdc) as [_ Hne].
    destruct (_decorate_layout fuel c fields_info) as [c'|e|]; cbn [bind];
      try (split; discriminate).
    split; [discriminate|]. intros [= ->]. now apply Hne.
  - rewrite Hleaf. apply decorate_leaf_outcomes.
Qed.
End pipeline_facts.

(** X1.  The two passes fit: whatever the transformer returns, the decorator
    walks it without falling off its end (it never answers [None]) and finds
    [controls] on every container. *)
Theorem decorate_after_transform :
  forall fuel fuel' self layout (form_defaults : defaults) wrap v (fields_info : fields),
    _transform_layout fuel self layout form_defaults wrap = Ok v ->
    _decorate_layout fuel' v fields_info <> Ok VNone /\
    _decorate_layout fuel' v fields_info <> Raise (KeyError "controls").
Proof.
  intros fuel fuel' self layout form_defaults wrap v fields_info H.
  apply decorable_decorate. eapply transform_decorable. exact H.
Qed.

Lemma decorate_after_transform_witness :
  _decorate_layout 6
    (VList [VDict [("type", VStr "columns");
                   ("controls",
                    VList [VDict [("id", VStr "a")];
                           VDict [("type", VStr "group");
                                  ("controls", VList [VDict [("id", VStr "c")]])]])]])
    (serializer_info bare_viewset) <> Ok VNone.
Proof.
  apply (decorate_after_transform 6 6 bare_viewset
           (VList [columns [VStr "a"; group [VStr "c"]]]) [] false).
  reflexivity.
Defined.

Section more_transform_facts.
Import Dict DictFacts.

Lemma call_values_get_str k s (layout : dict) :
  get k layout = Some (VStr s) -> get k (call_values layout) = Some (VStr s).
Proof. intros H. now rewrite get_call_values, H. Qed.

Lemma apply_form_defaults_no_id (layout : dict) (form_defaults : defaults) :
  get "id" layout = None -> apply_form_defaults layout form_defaults = Ok layout.
Proof. unfold apply_form_defaults. now intros ->. Qed.

Lemma mapM_first_failure {A B : Type} (f : A -> result B) pre x post e :
  Forall (fun a => exists b, f a = Ok b) pre ->
  f x = Raise e ->
  mapM f (pre ++ x :: post) = Raise e.
Proof.
  intros Hpre Hx. induction Hpre as [|a t [b Hb] Ht IH]; simpl.
  - now rewrite Hx.
  - now rewrite Hb, IH.
Qed.
End more_transform_facts.

(** X2.  A record of the defaults map that makes its own field a group (or
    fieldset) whose first control is that field again sends the transformer
    round in circles: on the field's name it returns nothing, whatever the
    depth allowed. *)
Theorem transform_self_reference_diverges :
  forall fuel self name (form_defaults : defaults) (overrides : dict) kind rest wrap,
    Dict.get name form_defaults = Some overrides ->
    NoDup (Dict.keys overrides) ->
    Dict.get "type" overrides = Some (VStr kind) ->
    kind = "group" \/ kind = "fieldset" ->
    Dict.get "controls" overrides = Some (VList (VStr name :: rest)) ->
    _transform_layout fuel self (VStr name) form_defaults wrap = OutOfFuel.
Proof.
  intros fuel self name form_defaults overrides kind rest wrap
         Hget Hnd Htype Hkind Hcontrols.
  assert (H : forall fuel,
             (forall wrap, _transform_layout fuel self (VStr name) form_defaults wrap
                           = OutOfFuel) /\
             (forall wrap, _transform_layout fuel self (VDict [("id", VStr name)])
                             form_defaults wrap = OutOfFuel) /\
             (forall wrap, _transform_layout fuel self (VList (VStr name :: rest))
                             form_defaults wrap = OutOfFuel)).
  { clear fuel wrap. induction fuel as [|fuel [IHs [IHd IHl]]];
      [repeat split; reflexivity|].
    repeat split; intros wrap.
    - cbn [_transform_layout]. apply IHd.
    - cbn [_transform_layout].
      rewrite (apply_form_defaults_found [("id", VStr name)] _ name overrides
                 eq_refl Hget).
      cbn [bind].
      set (m := call_values (Dict.update [("id", VStr name)] overrides)).
      assert (Hm_type : Dict.get "type" m = Some (VStr kind)).
      { unfold m. rewrite merged_get by assumption. now rewrite Htype. }
      assert (Hm_controls : Dict.get "controls" m = Some (VList (VStr name :: rest))).
      { unfold m. rewrite merged_get by assumption. now rewrite Hcontrols. }
      unfold layout_type, get_default. rewrite Hm_type.
      assert (Hk : is_str (VStr kind) "fieldset" || is_str (VStr kind) "group" = true)
        by (destruct Hkind as [->| ->]; reflexivity).
      rewrite Hk. unfold getitem. rewrite Hm_controls. cbn [bind].
      now rewrite IHl.
    - cbn [_transform_layout mapM]. now rewrite IHs. }
  apply H.
Qed.

Lemma transform_self_reference_diverges_witness :
  _transform_layout 1000 bare_viewset (VStr "a")
    [("a", [("type", VStr "group"); ("controls", VList [VStr "a"; VStr "c"])])] false
  = OutOfFuel.
Proof.
  apply (transform_self_reference_diverges 1000 bare_viewset "a"
           [("a", [("type", VStr "group"); ("controls", VList [VStr "a"; VStr "c"])])]
           [("type", VStr "group"); ("controls", VList [VStr "a"; VStr "c"])]
           "group" [VStr "c"] false).
  - reflexivity.
  - repeat constructor; simpl; intuition discriminate.
  - reflexivity.
  - now left.
  - reflexivity.
Defined.

(** X3.  In a list or tuple the items are transformed from left to right and
    the first one that fails decides: when the items before it transform, the
    whole list raises that item's exception, whatever follows it and whether
    or not the list is wrapped.  A value that is no mapping, sequence or
    string is such an item: it raises [NotImplementedError] naming it. *)
Theorem transform_first_failure :
  forall fuel self pre x post (form_defaults : defaults) wrap e,
    Forall (fun a => exists b,
                _transform_layout fuel self a form_defaults true = Ok b) pre ->
    _transform_layout fuel self x form_defaults true = Raise e ->
    _transform_layout (S fuel) self (VList (pre ++ x :: post)) form_defaults wrap
      = Raise e /\
    _transform_layout (S fuel) self (VTuple (pre ++ x :: post)) form_defaults wrap
      = Raise e /\
    (forall v,
        match v with
        | VNone | VBool _ | VInt _ | VCallable _ => True
        | _ => False
        end ->
        _transform_layout (S fuel) self v form_defaults wrap
          = Raise (NotImplementedError v)).
Proof.
  intros fuel self pre x post form_defaults wrap e Hpre Hx.
  assert (Hm : mapM (fun l => _transform_layout fuel self l form_defaults true)
                    (pre ++ x :: post) = Raise e).
  { now apply mapM_first_failure. }
  repeat split.
  - cbn [_transform_layout]. now rewrite Hm.
  - cbn [_transform_layout]. now rewrite Hm.
  - intros v Hv. destruct v; try contradiction; reflexivity.
Qed.

Lemma transform_first_failure_witness :
  _transform_layout 3 bare_viewset (VList [VStr "a"; VNone; VInt 3]) [] false
  = Raise (NotImplementedError VNone).
Proof.
  destruct (transform_first_failure 2 bare_viewset [VStr "a"] VNone [VInt 3] []
              false (NotImplementedError VNone)) as [H _].
  - repeat constructor. eexists. reflexivity.
  - reflexivity.
  - exact H.
Defined.

(** X4.  A mapping without an id (so that no defaults apply) that is a
    fieldset or group without [controls], or a columns node without
    [columns], raises [KeyError] for the missing key; one of kind "string"
    raises [KeyError 'id'] when the queryset has a model, and comes back as it
    is (callables called) when it has none. *)
Theorem transform_missing_keys :
  forall fuel self (node : dict) (form_defaults : defaults) wrap,
    Dict.get "id" node = None ->
    let t := layout_type (call_values node) in
    (is_str t "fieldset" || is_str t "group" = true ->
     Dict.get "controls" node = None ->
     _transform_layout (S fuel) self (VDict node) form_defaults wrap
       = Raise (KeyError "controls")) /\
    (is_str t "columns" = true ->
     Dict.get "columns" node = None ->
     _transform_layout (S fuel) self (VDict node) form_defaults wrap
       = Raise (KeyError "columns")) /\
    (is_str t "string" = true ->
     _transform_layout (S fuel) self (VDict node) form_defaults wrap
       = match queryset_model self with
         | Some _ => Raise (KeyError "id")
         | None => Ok (VDict (call_values node))
         end).
Proof.
  intros fuel self node form_defaults wrap Hid t.
  assert (Hnone : forall k, Dict.get k node = None ->
                            Dict.get k (call_values node) = None).
  { intros k Hk. now rewrite get_call_values, Hk. }
  repeat split.
  - intros Hkind Hc. cbn [_transform_layout].
    rewrite apply_form_defaults_no_id by assumption. cbn [bind].
    fold t. rewrite Hkind. unfold getitem. now rewrite (Hnone _ Hc).
  - intros Hkind Hc. cbn [_transform_layout].
    rewrite apply_form_defaults_no_id by assumption. cbn [bind].
    fold t. rewrite (is_str_exclusive _ _ "fieldset" Hkind) by discriminate.
    rewrite (is_str_exclusive _ _ "group" Hkind) by discriminate.
    cbn [orb]. rewrite Hkind. unfold getitem. now rewrite (Hnone _ Hc).
  - intros Hkind. cbn [_transform_layout].
    rewrite apply_form_defaults_no_id by assumption. cbn [bind].
    fold t. rewrite (is_str_exclusive _ _ "fieldset" Hkind) by discriminate.
    rewrite (is_str_exclusive _ _ "group" Hkind) by discriminate.
    rewrite (is_str_exclusive _ _ "columns" Hkind) by discriminate.
    cbn [orb]. rewrite Hkind. unfold string_or_textarea, getitem.
    rewrite (Hnone _ Hid). now destruct (queryset_model self).
Qed.

Lemma transform_missing_keys_witness :
  _transform_layout 1 bare_viewset
    (VDict [("type", VStr "fieldset"); ("label", VStr "Address")]) [] true
    = Raise (KeyError "controls") /\
  _transform_layout 1 bare_viewset (VDict [("type", VStr "columns")]) [] true
    = Raise (KeyError "columns") /\
  _transform_layout 1 bare_viewset (VDict [("label", VStr "Orphan")]) [] true
    = Raise (KeyError "id").
Proof.
  split; [|split].
  - destruct (transform_missing_keys 0 bare_viewset
                [("type", VStr "fieldset"); ("label", VStr "Address")] [] true
                eq_refl) as [H _]. apply H; reflexivity.
  - destruct (transform_missing_keys 0 bare_viewset [("type", VStr "columns")] []
                true eq_refl) as [_ [H _]]. apply H; reflexivity.
  - destruct (transform_missing_keys 0 bare_viewset [("label", VStr "Orphan")] []
                true eq_refl) as [_ [_ H]]. apply H; reflexivity.
Defined.

Section more_decorate_facts.
Import Dict DictFacts.

Lemma get_update_overlay k (md layout : dict) :
  NoDup (keys layout) ->
  get k (update md layout)
  = match get k layout with
    | Some v => Some v
    | None => get k md
    end.
Proof.
  intros Hnd. destruct (get k layout) as [v|] eqn:E.
  - now apply get_update_present.
  - now apply get_update_absent.
Qed.

(** The type a decorated leaf ends with, whatever happens to its choices. *)
Lemma decorate_leaf_type (layout : dict) (fields_info : fields) out :
  decorate_leaf layout fields_info = Ok (VDict out) ->
  exists md t,
    merged_metadata layout fields_info = Ok md /\
    get "type" md = Some t /\
    get "type" out = Some (if is_str t "choice" then VStr "select" else t).
Proof.
  unfold decorate_leaf. intros H.
  destruct (merged_metadata layout fields_info) as [md| |]; cbn [bind] in H;
    try discriminate.
  unfold getitem in H at 1.
  destruct (get "type" md) as [t|] eqn:Et; cbn [bind] in H; try discriminate.
  exists md, t. repeat split; auto.
  set (md' := if is_str t "choice" then set "type" (VStr "select") md else md) in *.
  assert (Hmd' : get "type" md'
                 = Some (if is_str t "choice" then VStr "select" else t)).
  { unfold md'. destruct (is_str t "choice"); [apply get_set_eq|assumption]. }
  unfold decorate_choices in H.
  destruct (truthy (get_default "choices" VNone md')).
  - destruct (getitem "choices" md') as [c| |]; cbn [bind] in H; try discriminate.
    destruct (iterate c) as [items| |]; cbn [bind] in H; try discriminate.
    destruct (mapM decorate_choice items) as [cs| |]; cbn [bind] in H;
      try discriminate.
    injection H as <-. unfold _decorate_layout_item.
    rewrite get_set_ne by discriminate. assumption.
  - cbn [bind] in H. injection H as <-. assumption.
Qed.

(** Decorating a leaf touches [type] and [choices] only. *)
Lemma decorate_leaf_other_keys (layout : dict) (fields_info : fields) out :
  decorate_leaf layout fields_info = Ok (VDict out) ->
  exists md,
    merged_metadata layout fields_info = Ok md /\
    forall k, k <> "type" -> k <> "choices" -> get k out = get k md.
Proof.
  unfold decorate_leaf. intros H.
  destruct (merged_metadata layout fields_info) as [md| |]; cbn [bind] in H;
    try discriminate.
  unfold getitem in H at 1.
  destruct (get "type" md) as [t|] eqn:Et; cbn [bind] in H; try discriminate.
  exists md. split; [reflexivity|]. intros k Hk Hc.
  set (md' := if is_str t "choice" then set "type" (VStr "select") md else md) in *.
  assert (Hmd' : get k md' = get k md).
  { unfold md'. destruct (is_str t "choice"); [now apply get_set_ne|reflexivity]. }
  unfold decorate_choices in H.
  destruct (truthy (get_default "choices" VNone md')).
  - destruct (getitem "choices" md') as [c| |]; cbn [bind] in H; try discriminate.
    destruct (iterate c) as [items| |]; cbn [bind] in H; try discriminate.
    destruct (mapM decorate_choice items) as [cs| |]; cbn [bind] in H;
      try discriminate.
    injection H as <-. unfold _decorate_layout_item.
    now rewrite get_set_ne by assumption.
  - cbn [bind] in H. injection H as <-. assumption.
Qed.

Lemma merged_metadata_found (layout md : dict) (fields_info : fields) id :
  get "id" layout = Some (VStr id) ->
  get id fields_info = Some md ->
  merged_metadata layout fields_info = Ok (update md layout).
Proof.
  intros Hid Hmd. unfold merged_metadata, getitem. rewrite Hid. cbn [bind].
  unfold field_metadata. cbn [hashable negb]. now rewrite Hmd.
Qed.
End more_decorate_facts.

(** X5.  Decorating a leaf overlays the layout node on the serializer's
    metadata of its field.  Whenever it returns, the decorated node has,
    under every key but [type] and [choices], the node's value when the node
    has the key and the metadata's value otherwise; its type is the overlaid
    type, with "choice" turned into "select".  With a type at hand and no
    choices to reshape it does return, and [choices] too is the overlaid
    value. *)
Theorem decorate_layout_over_metadata :
  forall fuel (fields_info : fields) (layout md : dict) id t,
    is_container layout = false ->
    NoDup (Dict.keys layout) ->
    Dict.get "id" layout = Some (VStr id) ->
    Dict.get id fields_info = Some md ->
    match Dict.get "type" layout with
    | Some v => Some v
    | None => Dict.get "type" md
    end = Some t ->
    (forall out,
        _decorate_layout (S fuel) (VDict layout) fields_info = Ok (VDict out) ->
        (forall k, k <> "type" -> k <> "choices" ->
                   Dict.get k out = match Dict.get k layout with
                                    | Some v => Some v
                                    | None => Dict.get k md
                                    end) /\
        Dict.get "type" out = Some (if is_str t "choice" then VStr "select" else t)) /\
    (truthy (get_default "choices" VNone (Dict.update md layout)) = false ->
     exists out,
       _decorate_layout (S fuel) (VDict layout) fields_info = Ok (VDict out) /\
       Dict.get "choices" out = match Dict.get "choices" layout with
                                | Some v => Some v
                                | None => Dict.get "choices" md
                                end).
Proof.
  intros fuel fields_info layout md id t Hleaf Hnd Hid Hmd Ht.
  pose proof (merged_metadata_found layout md fields_info id Hid Hmd) as Hmerged.
  split.
  - intros out Hrun. cbn [_decorate_layout] in Hrun. rewrite Hleaf in Hrun.
    split.
    + destruct (decorate_leaf_other_keys layout fields_info out Hrun)
        as [md' [Hmd' Hkeys]].
      rewrite Hmerged in Hmd'. injection Hmd' as <-.
      intros k Hk Hc. rewrite Hkeys by assumption.
      now apply get_update_overlay.
    + destruct (decorate_leaf_type layout fields_info out Hrun)
        as [md' [t' [Hmd' [Ht' Hout]]]].
      rewrite Hmerged in Hmd'. injection Hmd' as <-.
      rewrite get_update_overlay, Ht in Ht' by assumption.
      injection Ht' as <-. exact Hout.
  - intros Hchoices.
    cbn [_decorate_layout]. rewrite Hleaf.
    unfold decorate_leaf. rewrite Hmerged. cbn [bind].
    unfold getitem at 1. rewrite get_update_overlay, Ht by assumption. cbn [bind].
    set (merged := Dict.update md layout) in *.
    set (md' := if is_str t "choice"
                then Dict.set "type" (VStr "select") merged else merged).
    assert (Hsame : Dict.get "choices" md' = Dict.get "choices" merged).
    { unfold md'. destruct (is_str t "choice"); auto.
      now apply DictFacts.get_set_ne. }
    unfold decorate_choices, get_default. rewrite Hsame.
    unfold get_default in Hchoices. rewrite Hchoices. cbn [bind].
    exists md'. unfold _decorate_layout_item. split; [reflexivity|].
    rewrite Hsame. unfold merged. now apply get_update_overlay.
Qed.

Lemma decorate_layout_over_metadata_witness :
  exists out,
    _decorate_layout 1 (VDict [("id", VStr "a"); ("label", VStr "Name")])
      [("a", [("type", VStr "choice"); ("label", VStr "A"); ("required", VBool true)])]
      = Ok (VDict out) /\
    Dict.get "label" out = Some (VStr "Name") /\
    Dict.get "required" out = Some (VBool true) /\
    Dict.get "type" out = Some (VStr "select") /\
    Dict.get "choices" out = None.
Proof.
  destruct (decorate_layout_over_metadata 0
              [("a", [("type", VStr "choice"); ("label", VStr "A");
                      ("required", VBool true)])]
              [("id", VStr "a"); ("label", VStr "Name")]
              [("type", VStr "choice"); ("label", VStr "A"); ("required", VBool true)]
              "a" (VStr "choice"))
    as [Hany Hrun].
  - reflexivity.
  - repeat constructor; simpl; intuition discriminate.
  - reflexivity.
  - reflexivity.
  - reflexivity.
  - destruct (Hrun eq_refl) as [out [Hout Hchoices]].
    destruct (Hany out Hout) as [Hkeys Htype].
    exists out. split; [exact Hout|].
    split; [apply (Hkeys "label"); discriminate|].
    split; [apply (Hkeys "required"); discriminate|].
    split; [exact Htype|exact Hchoices].
Defined.

(** X6.  No decorated leaf has the type "choice": whenever the decorator
    returns a leaf, with or without choices, its type is the overlaid type,
    and "select" when that was "choice". *)
Theorem decorate_leaf_never_choice :
  forall fuel (fields_info : fields) (layout out : dict),
    is_container layout = false ->
    _decorate_layout (S fuel) (VDict layout) fields_info = Ok (VDict out) ->
    exists md t,
      merged_metadata layout fields_info = Ok md /\
      Dict.get "type" md = Some t /\
      Dict.get "type" out = Some (if is_str t "choice" then VStr "select" else t) /\
      Dict.get "type" out <> Some (VStr "choice").
Proof.
  intros fuel fields_info layout out Hleaf H.
  cbn [_decorate_layout] in H. rewrite Hleaf in H.
  destruct (decorate_leaf_type layout fields_info out H) as [md [t [Hmd [Ht Hout]]]].
  exists md, t. repeat split; auto.
  rewrite Hout. destruct (is_str t "choice") eqn:E; [discriminate|].
  intros [= ->]. discriminate E.
Qed.

Lemma decorate_leaf_never_choice_witness :
  exists md t,
    merged_metadata
      [("id", VStr "kind"); ("type", VStr "choice");
       ("choices", VList [VDict [("value", VInt 1); ("label", VStr "One")]])] []
      = Ok md /\
    Dict.get "type" md = Some t /\
    Dict.get "type"
      [("id", VStr "kind"); ("type", VStr "select");
       ("choices", VList [VDict [("label", VStr "One"); ("value", VInt 1)]])]
      = Some (if is_str t "choice" then VStr "select" else t) /\
    Dict.get "type"
      [("id", VStr "kind"); ("type", VStr "select");
       ("choices", VList [VDict [("label", VStr "One"); ("value", VInt 1)]])]
      <> Some (VStr "choice").
Proof.
  apply (decorate_leaf_never_choice 0 []
           [("id", VStr "kind"); ("type", VStr "choice");
            ("choices", VList [VDict [("value", VInt 1); ("label", VStr "One")]])]);
    reflexivity.
Defined.

(** ** The assembled response *)

Section response_facts.
Import Dict DictFacts.
Local Open Scope string_scope.

Lemma endswith_slash_append a b :
  b <> EmptyString -> endswith_slash (a ++ b) = endswith_slash b.
Proof.
  intros Hb. induction a as [|c a IH]; [reflexivity|].
  change (String c a ++ b) with (String c (a ++ b)). cbn [endswith_slash].
  destruct (a ++ b) eqn:E; [|exact IH].
  destruct a; [simpl in E; congruence|discriminate].
Qed.

Lemma endswith_slash_add a : endswith_slash (a ++ "/") = true.
Proof. now rewrite endswith_slash_append by discriminate. Qed.

Lemma get_url_by_form_id_slash self form_id :
  _get_url_by_form_id self form_id = EmptyString \/
  endswith_slash (_get_url_by_form_id self form_id) = true.
Proof.
  unfold _get_url_by_form_id.
  destruct (String.eqb form_id EmptyString); auto.
  destruct (get form_id (form_actions self)) as [url|]; auto.
  destruct (endswith_slash url) eqn:E; auto.
  right. apply endswith_slash_add.
Qed.

Lemma django_url_slash self form_id base_path :
  endswith_slash base_path = true ->
  endswith_slash (base_path ++ _get_url_by_form_id self form_id) = true.
Proof.
  intros Hb. destruct (get_url_by_form_id_slash self form_id) as [->|Hu].
  - now rewrite append_empty_r.
  - rewrite endswith_slash_append; auto.
    intros E. rewrite E in Hu. discriminate.
Qed.

Lemma linked_form_path_slash p name :
  endswith_slash (linked_form_path p name) = true.
Proof.
  unfold linked_form_path.
  change (?x ++ "/" ++ name ++ "/") with (x ++ ("/" ++ name ++ "/")).
  rewrite endswith_slash_append by discriminate.
  change ("/" ++ name ++ "/") with (String "/" (name ++ "/")).
  change (String "/" (name ++ "/")) with ("/" ++ (name ++ "/")).
  rewrite endswith_slash_append; [apply endswith_slash_add|].
  destruct name; discriminate.
Qed.

Lemma build_form_metadata_response fuel self has_instance form_name base_path r :
  build_form_metadata fuel self has_instance form_name base_path = Ok r ->
  exists layout title,
    r = response layout title has_instance
          (base_path ++ _get_url_by_form_id self form_name) /\
    normalized layout = true /\
    _get_form_title self has_instance form_name = Ok title.
Proof.
  unfold build_form_metadata. intros H.
  destruct (_get_form_layout fuel self (serializer_info self) form_name)
    as [layout| |]; cbn [bind] in H; try discriminate.
  destruct (_decorate_layout fuel layout (serializer_info self))
    as [decorated| |]; cbn [bind] in H; try discriminate.
  destruct (_get_form_title self has_instance form_name) as [title| |];
    cbn [bind] in H; try discriminate.
  injection H as <-.
  exists (_convert_camel_case decorated), title.
  repeat split. apply converted_normalized.
Qed.

(** Every response, through any chain of linked forms. *)
Lemma form_metadata_response fuel :
  forall self request_ has_instance form_name base_path r,
    _get_form_metadata fuel self request_ has_instance form_name base_path = Ok r ->
    exists layout title flag url,
      r = response layout title flag url /\
      normalized layout = true /\
      (endswith_slash base_path = true -> endswith_slash url = true) /\
      (Dict.get form_name (linked_forms self) = None \/ form_name = EmptyString ->
       flag = has_instance /\
       url = base_path ++ _get_url_by_form_id self form_name).
Proof.
  induction fuel as [|fuel IH];
    intros self request_ has_instance form_name base_path r H; [discriminate|].
  cbn [_get_form_metadata] in H.
  assert (Hbuild : build_form_metadata fuel self has_instance form_name base_path
                   = Ok r ->
                   exists layout title flag url,
                     r = response layout title flag url /\
                     normalized layout = true /\
                     (endswith_slash base_path = true ->
                      endswith_slash url = true) /\
                     (Dict.get form_name (linked_forms self) = None \/
                      form_name = EmptyString ->
                      flag = has_instance /\
                      url = base_path ++ _get_url_by_form_id self form_name)).
  { intros Hb.
    destruct (build_form_metadata_response _ _ _ _ _ _ Hb)
      as [layout [title [-> [Hn _]]]].
    exists layout, title, has_instance,
      (base_path ++ _get_url_by_form_id self form_name).
    repeat split; auto. intros Hs. now apply django_url_slash. }
  destruct (String.eqb form_name EmptyString) eqn:Ename; cbn [negb] in H; [now apply Hbuild|].
  destruct (get form_name (linked_forms self)) as [form_def|] eqn:Elinked.
  - unfold _linked_form_metadata in H.
    destruct (IH _ _ _ _ _ _ H) as [layout [title [flag [url [-> [Hn [Hs _]]]]]]].
    exists layout, title, flag, url. repeat split; auto.
    + intros _. apply Hs. apply linked_form_path_slash.
    + destruct H0 as [H0|H0]; [discriminate|].
      apply String.eqb_neq in Ename. contradiction.
    + destruct H0 as [H0|H0]; [discriminate|].
      apply String.eqb_neq in Ename. contradiction.
  - destruct (negb (truthy_layouts (form_layouts self))); [discriminate|].
    destruct (negb (mem form_name (form_layouts self))); [discriminate|].
    now apply Hbuild.
Qed.
End response_facts.

(** X7.  Whatever the assembler returns, directly or through any chain of
    linked forms, is a mapping with the six keys layout, formTitle, actions,
    method, hasInitialData and djangoUrl, in that order; method is "patch"
    exactly when hasInitialData is true, the actions are those of that flag,
    and no key of the layout, at any depth, has an underscore.  For a form
    that is not linked the flag is the caller's and djangoUrl is the base path
    followed by the URL of the form. *)
Theorem form_metadata_response_shape :
  forall fuel self request_ has_instance form_name base_path r,
    _get_form_metadata fuel self request_ has_instance form_name base_path = Ok r ->
    exists layout title flag url,
      r = VDict [("layout", layout);
                 ("formTitle", title);
                 ("actions", _get_actions flag);
                 ("method", if truthy flag then VStr "patch" else VStr "post");
                 ("hasInitialData", flag);
                 ("djangoUrl", VStr url)] /\
      normalized layout = true /\
      (Dict.get form_name (linked_forms self) = None \/ form_name = EmptyString ->
       flag = has_instance /\
       url = (base_path ++ _get_url_by_form_id self form_name)%string).
Proof.
  intros fuel self request_ has_instance form_name base_path r H.
  destruct (form_metadata_response _ _ _ _ _ _ _ H)
    as [layout [title [flag [url [-> [Hn [_ Hflag]]]]]]].
  exists layout, title, flag, url. repeat split; auto; now apply Hflag.
Qed.

Lemma form_metadata_response_shape_witness :
  exists layout title flag url,
    _get_form_metadata 4 bare_viewset bare_request (VBool true) EmptyString "/api/invoices/"
      = Ok (VDict [("layout", layout);
                   ("formTitle", title);
                   ("actions", _get_actions flag);
                   ("method", if truthy flag then VStr "patch" else VStr "post");
                   ("hasInitialData", flag);
                   ("djangoUrl", VStr url)]) /\
    normalized layout = true /\
    flag = VBool true /\ url = "/api/invoices/".
Proof.
  destruct (form_metadata_response_shape 4 bare_viewset bare_request (VBool true)
              EmptyString "/api/invoices/"
              (response
                 (VList [VDict [("type", VStr "string"); ("id", VStr "a");
                                ("readOnly", VBool false)];
                         VDict [("type", VStr "string"); ("id", VStr "c");
                                ("readOnly", VBool false)]])
                 (VStr "Editing Invoice") (VBool true) "/api/invoices/")
              eq_refl)
    as [layout [title [flag [url [Hr [Hn Hflag]]]]]].
  destruct (Hflag (or_intror eq_refl)) as [Hf Hu].
  exists layout, title, flag, url. repeat split; auto.
  now rewrite <- Hr.
Defined.

(** X8.  For a linked form whose form on the linked viewset is not linked in
    turn, the caller's instance flag is not used: the flag of the response is
    the link id read from the request, that is the value of the link
    parameter in the query string when that is true, else its value in the
    body, else [None], and [None] when the form names no link parameter.  So
    whether the form is a "patch" or a "post" form is decided by the link id
    alone.  The URL is the rewritten path followed by the URL of the form on
    the linked viewset. *)
Theorem linked_form_flag :
  forall fuel self request_ has_instance form_name base_path form_def r,
    form_name <> EmptyString ->
    Dict.get form_name (linked_forms self) = Some form_def ->
    Dict.get (lf_form_id form_def) (linked_forms (lf_viewset form_def)) = None \/
    lf_form_id form_def = EmptyString ->
    _get_form_metadata fuel self request_ has_instance form_name base_path = Ok r ->
    exists layout title flag,
      r = response layout title flag
            (linked_form_path (path request_) form_name
             ++ _get_url_by_form_id (lf_viewset form_def) (lf_form_id form_def)) /\
      flag = match lf_link_id form_def with
             | None => VNone
             | Some p =>
                 let in_body := match Dict.get p (data request_) with
                                | Some w => w
                                | None => VNone
                                end in
                 match Dict.get p (GET request_) with
                 | Some v => if truthy v then v else in_body
                 | None => in_body
                 end
             end.
Proof.
  intros fuel self request_ has_instance form_name base_path form_def r
         Hname Hlinked Hplain H.
  destruct fuel as [|fuel]; [discriminate|].
  apply String.eqb_neq in Hname.
  cbn [_get_form_metadata] in H. rewrite Hname, Hlinked in H. cbn [negb] in H.
  unfold _linked_form_metadata in H.
  destruct (form_metadata_response _ _ _ _ _ _ _ H)
    as [layout [title [flag [url [-> [_ [_ Hflag]]]]]]].
  destruct (Hflag Hplain) as [-> ->].
  exists layout, title, (linked_form_link_id request_ form_def).
  split; [reflexivity|].
  unfold linked_form_link_id, py_or, get_default.
  destruct (lf_link_id form_def) as [p|]; [|reflexivity]. cbv zeta.
  destruct (Dict.get p (GET request_)) as [v|]; reflexivity.
Qed.

Lemma linked_form_flag_witness :
  exists layout title,
    _get_form_metadata 4 linking_viewset
      {| path := "/api/invoices/7/form/address/";
         GET := [("invoice", VStr EmptyString)];
         data := [("invoice", VInt 7)] |}
      (VBool false) "address" "/api/invoices/7/"
    = Ok (response layout title (VInt 7) "/api/invoices/7/address/") /\
    title = VStr "Editing Invoice".
Proof.
  destruct (linked_form_flag 4 linking_viewset
              {| path := "/api/invoices/7/form/address/";
                 GET := [("invoice", VStr EmptyString)];
                 data := [("invoice", VInt 7)] |}
              (VBool false) "address" "/api/invoices/7/"
              {| lf_viewset := bare_viewset;
                 lf_link_id := Some "invoice";
                 lf_form_id := EmptyString |}
              (response
                 (VList [VDict [("type", VStr "string"); ("id", VStr "a");
                                ("readOnly", VBool false)];
                         VDict [("type", VStr "string"); ("id", VStr "c");
                                ("readOnly", VBool false)]])
                 (VStr "Editing Invoice") (VInt 7) "/api/invoices/7/address/"))
    as [layout [title [flag [Hr Hflag]]]].
  - discriminate.
  - reflexivity.
  - now right.
  - reflexivity.
  - exists layout, title. cbn in Hflag. subst flag.
    injection Hr as Hl Ht. subst layout title. split; reflexivity.
Defined.

(** X9.  The URL a route answers with ends with a slash: whenever one of the
    four routes returns a response, its djangoUrl ends with "/". *)
Theorem routes_django_url_slash :
  forall fuel self request_ form_name r,
    form fuel self request_ = Ok r \/
    form_list fuel self request_ = Ok r \/
    form_with_name fuel self request_ form_name = Ok r \/
    form_list_with_name fuel self request_ form_name = Ok r ->
    exists layout title flag url,
      r = response layout title flag url /\ endswith_slash url = true.
Proof.
  intros fuel self request_ form_name r H.
  assert (Hbase : forall level,
             endswith_slash (_base_path (path request_) level) = true).
  { intros level. unfold _base_path. apply endswith_slash_add. }
  unfold form, form_list, form_with_name, form_list_with_name in H.
  destruct H as [H|[H|[H|H]]];
    destruct (form_metadata_response _ _ _ _ _ _ _ H)
      as [layout [title [flag [url [-> [_ [Hs _]]]]]]];
    exists layout, title, flag, url; split; auto.
Qed.

Lemma routes_django_url_slash_witness :
  exists layout title flag url,
    response
      (VList [VDict [("type", VStr "string"); ("id", VStr "a");
                     ("readOnly", VBool false)];
              VDict [("type", VStr "string"); ("id", VStr "c");
                     ("readOnly", VBool false)]])
      (VStr "Creating a new Invoice") (VBool false) "/api/invoices/"
    = response layout title flag url /\ endswith_slash url = true.
Proof.
  apply (routes_django_url_slash 4 bare_viewset
           {| path := "/api/invoices/form"; GET := []; data := [] |} None).
  right. left. reflexivity.
Defined.

Section base_path_facts.
Local Open Scope string_scope.







End base_path_facts.



(** ** Which configuration a form reads *)

Section layout_source_facts.
Import Dict DictFacts.



Lemma generated_layout_items_missing (fields_info : fields) :
  Exists lacks_read_only fields_info ->
  generated_layout_items fields_info = Raise (KeyError "read_only").
Proof.
  induction fields_info as [|[name field] t IH]; intros H; [inversion H|].
  cbn [generated_layout_items]. unfold getitem.
  destruct (get "read_only" field) as [r|] eqn:E; [|reflexivity].
  cbn [bind]. inversion H as [? ? Hl|? ? Hl]; subst.
  - unfold lacks_read_only in Hl. simpl in Hl. congruence.
  - now rewrite (IH Hl).
Qed.
End layout_source_facts.





(** X13.  With no layout configured, a metadata entry that has no [read_only]
    flag makes the resolution fail with [KeyError 'read_only'], before
    anything is transformed. *)
Theorem get_form_layout_missing_flag :
  forall fuel self (fields_info : fields) form_name src,
    selected_layout self form_name = Ok src ->
    layout_configured src = false ->
    Exists lacks_read_only fields_info ->
    _get_form_layout fuel self fields_info form_name = Raise (KeyError "read_only").
Proof.
  intros fuel self fields_info form_name src Hsel Hnone Hmissing.
  unfold _get_form_layout. rewrite Hsel. cbn [bind]. rewrite Hnone.
  now rewrite generated_layout_items_missing.
Qed.

Lemma get_form_layout_missing_flag_witness :
  _get_form_layout 0 bare_viewset
    [("a", [("type", VStr "string"); ("read_only", VBool false)]);
     ("b", [("type", VStr "integer")])] EmptyString
  = Raise (KeyError "read_only").
Proof.
  apply (get_form_layout_missing_flag 0 bare_viewset _ EmptyString (LayoutValue VNone)).
  - reflexivity.
  - reflexivity.
  - apply Exists_cons_tl. apply Exists_cons_hd. reflexivity.
Defined.

(** X14.  The helpers and the transformer: [columns] of controls becomes a
    columns node that holds one transformed node per control under [controls]
    and has no [columns] key; a [group] becomes a group node when it is
    nested and a plain list at the root; a [fieldset] keeps its title as
    label (called when it is callable) and holds its transformed controls. *)
Theorem transform_helpers :
  forall fuel self cs (form_defaults : defaults) wrap nodes,
    mapM (fun c => _transform_layout fuel self c form_defaults true) cs = Ok nodes ->
    _transform_layout (S (S fuel)) self (columns cs) form_defaults wrap
      = Ok (VDict [("type", VStr "columns"); ("controls", VList nodes)]) /\
    _transform_layout (S fuel) self (group cs) form_defaults true
      = Ok (VDict [("type", VStr "group"); ("controls", VList nodes)]) /\
    _transform_layout (S fuel) self (group cs) form_defaults false
      = Ok (VList nodes) /\
    (forall title,
        _transform_layout (S (S fuel)) self (fieldset title (VList cs))
          form_defaults wrap
        = Ok (VDict [("type", VStr "fieldset"); ("label", call title);
                     ("controls", VList nodes)])).
Proof.
  intros fuel self cs form_defaults wrap nodes Hm.
  assert (Hlist : forall l, l = VList cs \/ l = VTuple cs ->
             _transform_layout (S fuel) self l form_defaults false = Ok (VList nodes)).
  { intros l [->| ->]; cbn [_transform_layout]; now rewrite Hm. }
  repeat split.
  - unfold columns. cbn -[mapM]. change (mapM _ cs) with
      (mapM (fun c => _transform_layout fuel self c form_defaults true) cs).
    now rewrite Hm.
  - unfold group. cbn [_transform_layout]. now rewrite Hm.
  - apply Hlist. now right.
  - intros title. unfold fieldset.
    cbn -[mapM]. change (mapM _ cs) with
      (mapM (fun c => _transform_layout fuel self c form_defaults true) cs).
    now rewrite Hm.
Qed.

Lemma transform_helpers_witness :
  _transform_layout 4 bare_viewset
    (columns [VDict [("id", VStr "a")]; group [VDict [("id", VStr "c")]]]) [] true
  = Ok (VDict [("type", VStr "columns");
               ("controls",
                VList [VDict [("id", VStr "a")];
                       VDict [("type", VStr "group");
                              ("controls", VList [VDict [("id", VStr "c")]])]])]).
Proof.
  apply (transform_helpers 2 bare_viewset
           [VDict [("id", VStr "a")]; group [VDict [("id", VStr "c")]]] [] true).
  reflexivity.
Defined.

(** ** More on the naming normalizer *)

(** X15.  What a converted mapping holds under a key: when keys of the
    mapping are renamed to it, the converted value of the last of them, also
    when the mapping had the key itself; otherwise the converted value the
    mapping had under it, and nothing under a key with an underscore. *)
Theorem convert_camel_case_lookup :
  forall (d : dict) c,
    exists out,
      _convert_camel_case (VDict d) = VDict out /\
      Dict.get c out
      = match last_renamed c d with
        | Some v => Some (_convert_camel_case v)
        | None =>
            if has_underscore c then None
            else option_map _convert_camel_case (Dict.get c d)
        end.
Proof.
  intros d c. exists (converted_items d). split; [reflexivity|].
  apply converted_items_lookup.
Qed.

(** X16.  On a name made of two or more pieces joined by underscores,
    [camel] gives the first piece in lower case followed by the other pieces
    in title case: splitting at the underscores gives the pieces back, empty
    ones included. *)
Theorem camel_of_pieces :
  forall first second others,
    Forall (fun p => has_underscore p = false) (first :: second :: others) ->
    split_underscore (join_underscore (first :: second :: others))
      = first :: second :: others /\
    camel (join_underscore (first :: second :: others))
      = join (lower first :: map title (second :: others)).
Proof.
  intros first second others H.
  pose proof (split_join_underscore _ _ H) as Hs. split; [exact Hs|].
  unfold camel. rewrite Hs.
  change (join_underscore (first :: second :: others))
    with (first ++ "_" ++ join_underscore (second :: others))%string.
  rewrite has_underscore_append. cbn [append has_underscore].
  unfold underscore. rewrite Ascii.eqb_refl. cbn [orb].
  now rewrite orb_true_r.
Qed.

Lemma camel_of_pieces_witness :
  camel "Display_NAME__x" = "displayNameX".
Proof.
  refine (proj2 (camel_of_pieces "Display" "NAME" [EmptyString; "x"] _)).
  repeat constructor.
Defined.

(** ** A linked form asked for outside the form routes *)

Section no_form_facts.

Lemma re_sub_empty_no_form p :
  contains_form p = false ->
  forall fuel, re_sub_empty fuel form_suffix p = p.
Proof.
  induction p as [|c p IH]; intros H fuel.
  - apply re_sub_empty_nil.
  - destruct fuel; [reflexivity|].
    cbn [contains_form] in H.
    destruct (strip_prefix "/form" (String c p)) eqn:Es; [discriminate|].
    cbn [re_sub_empty]. unfold form_suffix at 1. cbn [re_match].
    rewrite Es. f_equal. now apply IH.
Qed.
End no_form_facts.

(** X17.  A request path in which "/form" does not occur is left as it is by
    the substitution: the path handed to the linked viewset is then the
    request path itself, followed by a slash, the name of the form and a
    slash. *)
Theorem linked_form_path_without_form :
  forall p name,
    contains_form p = false ->
    linked_form_path p name = (p ++ "/" ++ name ++ "/")%string.
Proof.
  intros p name H. unfold linked_form_path.
  now rewrite re_sub_empty_no_form.
Qed.

Lemma linked_form_path_without_form_witness :
  linked_form_path "/api/notes/7/edit" "address" = "/api/notes/7/edit/address/".
Proof.
  apply (linked_form_path_without_form "/api/notes/7/edit" "address").
  reflexivity.
Defined.

